(** * RentalApp: the inbox screen and the socket server

  A shallow embedding of the chat inbox of the rental application:

  - the client screen [ChatsScreen] of [app/(tabs)/chats.tsx]: the thread
    list it keeps, the search projection, the title rule, [loadChats],
    [handleDelete], the socket handler and the push registration;
  - the socket part of the server entry point: the authentication
    middleware [io.use] and the connection handler [io.on('connection')].

  JavaScript strings are [string]; a value that may be [undefined] is an
  [option]; room membership of a socket is a [gset string]; the pending
  continuations of the asynchronous functions are kept in a [gmap] keyed by
  a task number, and every outside call the code makes is recorded in a
  list of [Effect]s. *)

From stdpp Require Import gmap strings list.

(** ** JavaScript values and strings *)

Module Js.

(** The argument list of a socket event: any JSON-like value. *)
#[warnings="-register-all"]
Inductive Value :=
| Undefined
| Null
| Str (s : string)
| Obj (fields : list (string * Value)).

(** [String.prototype.toLowerCase] belongs to the host, not to the
    application: the screen is stated over any implementation of it. *)
Class StringPrototype := { toLowerCase : string → string }.

(** [s.startsWith(p)] *)
Fixpoint startsWith (s p : string) {struct p} : bool :=
  match p, s with
  | EmptyString, _ => true
  | String _ _, EmptyString => false
  | String a p', String b s' => bool_decide (a = b) && startsWith s' p'
  end.

(** [s.includes(sub)]: [sub] occurs at some position of [s]. *)
Fixpoint includes (s sub : string) : bool :=
  startsWith s sub ||
  match s with
  | EmptyString => false
  | String _ s' => includes s' sub
  end.

(** [x || d] on a value that is a string or [undefined]: the empty string
    and [undefined] are both falsy. *)
Definition or_else (x : option string) (d : string) : string :=
  match x with
  | Some (String a s) => String a s
  | Some EmptyString | None => d
  end.

(** A template literal hole [${x}]. *)
Definition interpolate (x : option string) : string :=
  match x with
  | Some s => s
  | None => "undefined"
  end.

(** ASCII lower-casing, the instance used on concrete inputs. *)
Definition ascii_lower (c : Ascii.ascii) : Ascii.ascii :=
  let n := Ascii.nat_of_ascii c in
  if bool_decide (65 ≤ n ≤ 90) then Ascii.ascii_of_nat (n + 32) else c.

Fixpoint ascii_toLowerCase (s : string) : string :=
  match s with
  | EmptyString => EmptyString
  | String c s' => String (ascii_lower c) (ascii_toLowerCase s')
  end.

Definition ascii_strings : StringPrototype :=
  {| toLowerCase := ascii_toLowerCase |}.

End Js.

(** ** The inbox screen: [app/(tabs)/chats.tsx] *)

Module Chats.
Import Js.

(** A thread summary as the screen reads it (the declaration in
    [constants/Types] is used through these fields only).  The two fields
    the screen reads with [?.] may be [undefined]. *)
Record ChatListItem := {
  chatId : string;
  listingTitle : option string;
  recipientName : option string;
  listingOwnerFirebaseUID : string;
  lastMessageText : option string;
  lastMessageTimestamp : Z;
  unreadCount : Z;
}.

(** *** The title rule of [renderItem] *)

(** [firebaseUser?.uid === item.listingOwnerFirebaseUID] *)
Definition isMeTheOwner (viewer : option string) (item : ChatListItem) : bool :=
  match viewer with
  | Some uid => bool_decide (uid = listingOwnerFirebaseUID item)
  | None => false
  end.

(** [isMeTheOwner ? item.recipientName : item.listingTitle || 'Conversation'] *)
Definition titleToDisplay (viewer : option string) (item : ChatListItem)
    : option string :=
  if isMeTheOwner viewer item then recipientName item
  else Some (or_else (listingTitle item) "Conversation").

(** [isMeTheOwner ? `Listing: ${item.listingTitle}` : `From: ${item.recipientName}`] *)
Definition subtitleToDisplay (viewer : option string) (item : ChatListItem)
    : string :=
  if isMeTheOwner viewer item then "Listing: " +:+ interpolate (listingTitle item)
  else "From: " +:+ interpolate (recipientName item).

(** *** The search projection *)

Section Search.
Context `{StringPrototype}.

(** [field?.toLowerCase() || ''] *)
Definition lowered (field : option string) : string :=
  or_else (toLowerCase <$> field) "".

(** The callback of [chatItems.filter] in the search effect. *)
Definition matchesTerm (lowercasedTerm : string) (item : ChatListItem) : bool :=
  let title := lowered (listingTitle item) in
  let name := lowered (recipientName item) in
  includes title lowercasedTerm || includes name lowercasedTerm.

(** The value the search effect passes to [setFilteredChatItems]. *)
Definition searchFilter (searchTerm : string) (chatItems : list ChatListItem)
    : list ChatListItem :=
  if bool_decide (searchTerm = "") then chatItems
  else
    let lowercasedTerm := toLowerCase searchTerm in
    List.filter (matchesTerm lowercasedTerm) chatItems.

End Search.

(** *** Calls to the outside *)

(** Everything the screen asks of the platform, in the order it asks.  A
    request path is relative to [BASE_URL]; [bearer] is the token of the
    [Authorization] header and [body] the value given to [JSON.stringify]. *)
Inductive Effect :=
| ConsoleError (msg : string)
| AlertAlert (title message : string)
| SwipeableClose (chat : string)
| GetIdToken
| Fetch (method path bearer : string) (body : option Value)
| SetNotificationChannel (name : string)
| GetPermissions
| RequestPermissions
| GetExpoPushToken (projectId : option string).

(** *** The state of the mounted screen *)

(** A settled promise. *)
Inductive Settled (A : Type) :=
| Resolved (a : A)
| Rejected (reason : string).
Arguments Resolved {A} a.
Arguments Rejected {A} reason.

(** A suspended [async] function: which [await] it is parked on. *)
Inductive Task :=
| LoadToken
| LoadResponse
| DeleteToken (chat : string)
| DeleteResponse (chat : string).

Record Screen := {
  firebaseUser : option string;
  chatItems : list ChatListItem;
  loading : bool;
  searchTerm : string;
  filteredChatItems : list ChatListItem;
  tasks : gmap nat Task;
  promises : gmap nat (Settled unit);
  nextTask : nat;
  trace : list Effect;
}.

(** The screen as [useState] initialises it. *)
Definition mount (user : option string) : Screen :=
  {| firebaseUser := user; chatItems := []; loading := true; searchTerm := "";
     filteredChatItems := []; tasks := ∅; promises := ∅; nextTask := 0;
     trace := [] |}.

Definition setChatItems (v : list ChatListItem) (s : Screen) : Screen :=
  {| firebaseUser := firebaseUser s; chatItems := v; loading := loading s;
     searchTerm := searchTerm s; filteredChatItems := filteredChatItems s;
     tasks := tasks s; promises := promises s; nextTask := nextTask s; trace := trace s |}.

Definition setLoading (v : bool) (s : Screen) : Screen :=
  {| firebaseUser := firebaseUser s; chatItems := chatItems s; loading := v;
     searchTerm := searchTerm s; filteredChatItems := filteredChatItems s;
     tasks := tasks s; promises := promises s; nextTask := nextTask s; trace := trace s |}.

Definition setSearchTerm (v : string) (s : Screen) : Screen :=
  {| firebaseUser := firebaseUser s; chatItems := chatItems s; loading := loading s;
     searchTerm := v; filteredChatItems := filteredChatItems s;
     tasks := tasks s; promises := promises s; nextTask := nextTask s; trace := trace s |}.

Definition setFilteredChatItems (v : list ChatListItem) (s : Screen) : Screen :=
  {| firebaseUser := firebaseUser s; chatItems := chatItems s; loading := loading s;
     searchTerm := searchTerm s; filteredChatItems := v;
     tasks := tasks s; promises := promises s; nextTask := nextTask s; trace := trace s |}.

Definition setTasks (v : gmap nat Task) (s : Screen) : Screen :=
  {| firebaseUser := firebaseUser s; chatItems := chatItems s; loading := loading s;
     searchTerm := searchTerm s; filteredChatItems := filteredChatItems s;
     tasks := v; promises := promises s; nextTask := nextTask s; trace := trace s |}.

(** Record one outside call. *)
Definition emit (e : Effect) (s : Screen) : Screen :=
  {| firebaseUser := firebaseUser s; chatItems := chatItems s; loading := loading s;
     searchTerm := searchTerm s; filteredChatItems := filteredChatItems s;
     tasks := tasks s; promises := promises s; nextTask := nextTask s; trace := trace s ++ [e] |}.

(** Park a new [async] call on its first [await]. *)
Definition spawn (t : Task) (s : Screen) : Screen :=
  {| firebaseUser := firebaseUser s; chatItems := chatItems s; loading := loading s;
     searchTerm := searchTerm s; filteredChatItems := filteredChatItems s;
     tasks := <[nextTask s := t]> (tasks s); promises := promises s;
     nextTask := S (nextTask s);
     trace := trace s |}.

(** Move a parked call to its next [await]. *)
Definition park (id : nat) (t : Task) (s : Screen) : Screen :=
  setTasks (<[id := t]> (tasks s)) s.

(** The call returns: its promise settles as [r]. *)
Definition finish (id : nat) (r : Settled unit) (s : Screen) : Screen :=
  {| firebaseUser := firebaseUser s; chatItems := chatItems s; loading := loading s;
     searchTerm := searchTerm s; filteredChatItems := filteredChatItems s;
     tasks := delete id (tasks s); promises := <[id := r]> (promises s);
     nextTask := nextTask s; trace := trace s |}.

(** *** [loadChats] *)

(** What a [fetch] and the reading of its body come to: the promise rejects
    (no connectivity), or a response arrives with its [ok] flag and, when the
    body is a thread list, that list ([json = None]: [res.json()] rejects). *)
Inductive HttpOutcome :=
| FetchRejected
| Responded (ok : bool) (json : option (list ChatListItem)).

(** The synchronous head of [loadChats(isRefreshing)], up to the first
    [await]. *)
Definition loadChats (isRefreshing : bool) (s : Screen) : Screen :=
  match firebaseUser s with
  | None => s
  | Some _ =>
      let s := if isRefreshing then s else setLoading true s in
      spawn LoadToken (emit GetIdToken s)
  end.

(** [catch (err) { console.error(...) } finally { setLoading(false) }]: the
    error is consumed here, so the call then returns normally. *)
Definition loadChats_catch (s : Screen) : Screen :=
  setLoading false (emit (ConsoleError "Failed to load chat threads") s).

(** After [await firebaseUser.getIdToken()]: the request is sent, or the
    rejection lands in [catch]. *)
Definition loadChats_token (id : nat) (token : option string) (s : Screen) : Screen :=
  match token with
  | Some tok => park id LoadResponse (emit (Fetch "GET" "/api/chat/threads" tok None) s)
  | None => finish id (Resolved tt) (loadChats_catch s)
  end.

(** After [await fetch(...)] and the reading of the body. *)
Definition loadChats_response (id : nat) (r : HttpOutcome) (s : Screen) : Screen :=
  match r with
  | Responded true (Some data) => finish id (Resolved tt) (setLoading false (setChatItems data s))
  | Responded true None | Responded false _ | FetchRejected =>
      finish id (Resolved tt) (loadChats_catch s)
  end.

(** *** [handleDelete] *)

(** [handleDelete(chatId)] only opens the confirmation dialog. *)
Definition handleDelete (chat : string) (s : Screen) : Screen :=
  emit (AlertAlert "Delete Chat"
    "Are you sure you want to delete this chat thread? This action cannot be undone.") s.

(** The Cancel button. *)
Definition onCancel (chat : string) (s : Screen) : Screen :=
  emit (SwipeableClose chat) s.

(** [catch(err) { console.error(...); Alert.alert('Error', ...) }] *)
Definition delete_catch (s : Screen) : Screen :=
  emit (AlertAlert "Error" "Could not delete the chat thread. Please try again.")
    (emit (ConsoleError "Delete chat failed:") s).

(** The Delete button, up to the first [await]; [firebaseUser!] on a missing
    user throws inside the [try]. *)
Definition onDelete (chat : string) (s : Screen) : Screen :=
  match firebaseUser s with
  | None => delete_catch s
  | Some _ => spawn (DeleteToken chat) (emit GetIdToken s)
  end.

Definition delete_token (id : nat) (chat : string) (token : option string)
    (s : Screen) : Screen :=
  match token with
  | Some tok =>
      park id (DeleteResponse chat)
        (emit (Fetch "DELETE" ("/api/chat/threads/" +:+ chat) tok None) s)
  | None => finish id (Resolved tt) (delete_catch s)
  end.

(** [setChatItems(current => current.filter(item => item.chatId !== chatId))]
    once the response is ok; the updater reads the list of that moment. *)
Definition delete_response (id : nat) (chat : string) (r : HttpOutcome)
    (s : Screen) : Screen :=
  match r with
  | Responded true _ =>
      finish id (Resolved tt)
        (setChatItems
           (List.filter (λ item, bool_decide (chatId item ≠ chat)) (chatItems s)) s)
  | Responded false _ | FetchRejected => finish id (Resolved tt) (delete_catch s)
  end.

(** *** The event loop of the screen *)

Inductive Event :=
| FocusGained
| ChatActivity (args : list Value)
| PullToRefresh
| ChangeText (text : string)
| SwipeDelete (chat : string)
| PressCancel (chat : string)
| PressDelete (chat : string)
| TokenSettled (id : nat) (token : option string)
| ResponseSettled (id : nat) (r : HttpOutcome).

(** The handler the screen has registered for each event.  A settlement for
    a task that is not parked on that [await] has no continuation to run. *)
Definition handle (e : Event) (s : Screen) : Screen :=
  match e with
  | FocusGained => loadChats false s
  | ChatActivity _ => loadChats true s
  | PullToRefresh => loadChats true s
  | ChangeText text => setSearchTerm text s
  | SwipeDelete chat => handleDelete chat s
  | PressCancel chat => onCancel chat s
  | PressDelete chat => onDelete chat s
  | TokenSettled id token =>
      match tasks s !! id with
      | Some LoadToken => loadChats_token id token s
      | Some (DeleteToken chat) => delete_token id chat token s
      | _ => s
      end
  | ResponseSettled id r =>
      match tasks s !! id with
      | Some LoadResponse => loadChats_response id r s
      | Some (DeleteResponse chat) => delete_response id chat r s
      | _ => s
      end
  end.

Section Loop.
Context `{StringPrototype}.

(** The search effect, with dependencies [searchTerm] and [chatItems]. *)
Definition searchEffect (s : Screen) : Screen :=
  setFilteredChatItems (searchFilter (searchTerm s) (chatItems s)) s.

(** One turn: the handler, then the effects of the render it causes. *)
Definition step (s : Screen) (e : Event) : Screen :=
  searchEffect (handle e s).

Definition run (s : Screen) (es : list Event) : Screen :=
  foldl step s es.

End Loop.

(** How many thread-list requests the screen has sent. *)
Definition isListFetch (e : Effect) : bool :=
  match e with
  | Fetch "GET" "/api/chat/threads" _ _ => true
  | _ => false
  end.

Definition fetchCount (s : Screen) : nat :=
  length (List.filter isListFetch (trace s)).

(** The rows on display: the spinner replaces the list while
    [loading && chatItems.length === 0]; otherwise the [FlatList] shows
    [filteredChatItems]. *)
Definition displayed (s : Screen) : list ChatListItem :=
  if loading s && bool_decide (length (chatItems s) = 0) then []
  else filteredChatItems s.

Definition displayedIds (s : Screen) : list string :=
  chatId <$> displayed s.

(** *** Push registration *)

(** A straight-line [async] body: the calls it made and how it settled. *)
Definition Act (A : Type) : Type := list Effect * Settled A.

#[export] Instance act_ret : MRet Act := λ A a, ([], Resolved a).

#[export] Instance act_bind : MBind Act := λ A B k m,
  match m with
  | (t, Resolved a) => let '(t', r) := k a in (t ++ t', r)
  | (t, Rejected e) => (t, Rejected e)
  end.

(** A call that returns at once. *)
Definition perform (e : Effect) : Act unit := ([e], Resolved tt).

(** [await call], settled by the platform as [r]. *)
Definition await {A} (call : Effect) (r : Settled A) : Act A := ([call], r).

(** [try { body } catch (err) { handler }] *)
Definition tryCatch {A} (body : Act A) (handler : string → Act A) : Act A :=
  match body with
  | (t, Rejected e) => let '(t', r) := handler e in (t ++ t', r)
  | (t, Resolved a) => (t, Resolved a)
  end.

(** The permission object of the notification module, as
    [normalizePermissionStatus] inspects it: a [status] string, a [granted]
    flag, either or neither. *)
Record PermissionResponse := {
  status : option string;
  granted : option bool;
}.

(** The members of [Notifications.PermissionStatus]. *)
Definition GRANTED : string := "granted".
Definition DENIED : string := "denied".
Definition UNDETERMINED : string := "undetermined".

Definition normalizePermissionStatus (p : option PermissionResponse) : string :=
  match p with
  | Some obj =>
      match status obj with
      | Some st => st
      | None =>
          match granted obj with
          | Some g => if g then GRANTED else DENIED
          | None => UNDETERMINED
          end
      end
  | None => UNDETERMINED
  end.

(** How the platform answers each call of one registration. *)
Record Platform := {
  OS : string;
  channelSet : Settled unit;
  existingPermissions : Settled (option PermissionResponse);
  requestedPermissions : Settled (option PermissionResponse);
  projectId : option string;
  expoPushToken : Settled string;
  idToken : Settled string;
  pushTokenPosted : Settled unit;
}.

(** [projectId ? { projectId } : {}] *)
Definition projectOption (p : option string) : option string :=
  match p with
  | Some (String a s) => Some (String a s)
  | Some EmptyString | None => None
  end.

Definition registerForPushNotifications (user : option string) (env : Platform)
    : Act unit :=
  match user with
  | None => mret tt
  | Some _ =>
      (if bool_decide (OS env = "android")
       then await (SetNotificationChannel "default") (channelSet env)
       else mret tt) ;;
      existing ← await GetPermissions (existingPermissions env);
      finalStatus ←
        (let finalStatus := normalizePermissionStatus existing in
         if bool_decide (finalStatus ≠ "granted")
         then req ← await RequestPermissions (requestedPermissions env);
              mret (normalizePermissionStatus req)
         else mret finalStatus);
      if bool_decide (finalStatus ≠ "granted")
      then perform (AlertAlert "Permission Denied"
                      "Failed to get push token for notifications.")
      else
        tryCatch
          (token ← await (GetExpoPushToken (projectOption (projectId env)))
                     (expoPushToken env);
           idToken ← await GetIdToken (idToken env);
           await (Fetch "POST" "/api/users/push-token" idToken
                    (Some (Obj [("token", Str token)])))
                 (pushTokenPosted env))
          (λ err, perform (ConsoleError "Failed to send push token to backend"))
  end.

(** The calls a registration made that fetch or send a push token. *)
Definition isTokenTraffic (e : Effect) : bool :=
  match e with
  | GetExpoPushToken _ | Fetch _ _ _ _ | GetIdToken => true
  | _ => false
  end.

(** The permission prompt. *)
Definition isPrompt (e : Effect) : bool :=
  match e with
  | RequestPermissions => true
  | _ => false
  end.

(** *** [handleChatPress] *)

(** The [recipientName] parameter [handleChatPress] gives to the chat
    route: [isMeTheOwner ? item.recipientName : item.listingTitle || 'Chat']. *)
Definition routeRecipientName (viewer : option string) (item : ChatListItem)
    : option string :=
  if isMeTheOwner viewer item then recipientName item
  else Some (or_else (listingTitle item) "Chat").

(** An alert raised by the screen. *)
Definition isAlert (e : Effect) : bool :=
  match e with
  | AlertAlert _ _ => true
  | _ => false
  end.

End Chats.

(** ** The socket server: [io.use] and [io.on('connection')] *)

Module Server.

(** [socket.data] once the middleware has accepted the handshake. *)
Record SocketData := {
  firebaseUID : string;
  mongoUserId : string;
}.

(** [User.findOne({ firebaseUID }).lean()]: the query rejects, finds nothing
    ([null]), or finds a user document with its [_id]. *)
Inductive Lookup :=
| QueryRejected
| NotFound
| Found (_id : string).

(** The two services the middleware awaits: [admin.auth().verifyIdToken]
    (with [None] for a rejected promise, otherwise [decoded.uid]) and the
    user collection. *)
Record Backend := {
  verifyIdToken : string → option string;
  findOne : string → Lookup;
}.

(** What the middleware hands to [next]. *)
Inductive Handshake :=
| Next (data : SocketData)
| NextError (message : string).

(** The middleware given to [io.use]; [token] is
    [socket.handshake.auth.token], and [!token] holds for [undefined] and
    for the empty string. *)
Definition socketAuth (b : Backend) (token : option string) : Handshake :=
  match token with
  | None | Some EmptyString => NextError "Authentication token missing"
  | Some tok =>
      match verifyIdToken b tok with
      | None => NextError "Unauthorized"
      | Some uid =>
          match findOne b uid with
          | QueryRejected => NextError "Unauthorized"
          | NotFound => NextError "User not found in database"
          | Found id => Next {| firebaseUID := uid; mongoUserId := id |}
          end
      end
  end.

(** A socket: its data, the channels the handlers below have put it in,
    and whether its transport is still open ([socket.connected]). *)
Record Socket := {
  data : SocketData;
  rooms : gset string;
  connected : bool;
}.

Definition join (room : string) (s : Socket) : Socket :=
  {| data := data s; rooms := {[room]} ∪ rooms s; connected := connected s |}.

Definition leave (room : string) (s : Socket) : Socket :=
  {| data := data s; rooms := rooms s ∖ {[room]}; connected := connected s |}.

(** Modelled from the spec: the teardown of the socket library, which is
    not among the sources.  When the transport closes, and before the
    [disconnect] listeners run, the connection is taken out of every channel
    it belongs to (the [onDisconnect] of the Room Router: membership is
    revoked on disconnect); the socket is then closed and no further message
    reaches its listeners. *)
Definition close (s : Socket) : Socket :=
  {| data := data s; rooms := ∅; connected := false |}.

(** [`user-inbox-${mongoUserId}`] *)
Definition inbox (d : SocketData) : string :=
  "user-inbox-" +:+ mongoUserId d.

(** The body of the [connection] handler. *)
Definition onConnection (d : SocketData) : Socket :=
  join (inbox d) {| data := d; rooms := ∅; connected := true |}.

(** The three listeners the [connection] handler registers. *)
Inductive ClientEvent :=
| JoinRoom (chatId : string)
| LeaveRoom (chatId : string)
| Disconnect.

(** What an event does to a socket: on an open socket the listener of the
    event runs, the [disconnect] listener after the teardown; a closed
    socket has no event delivered. *)
Definition on (s : Socket) (e : ClientEvent) : Socket :=
  if connected s then
    match e with
    | JoinRoom chatId => join chatId s
    | LeaveRoom chatId => leave chatId s
    | Disconnect => leave (inbox (data s)) (close s)
    end
  else s.

(** The life of a socket: what it sends, then its disconnection. *)
Definition session (d : SocketData) (sent : list ClientEvent) : Socket :=
  on (foldl on (onConnection d) sent) Disconnect.

(** A connection attempt: a handshake the middleware refuses never reaches
    the [connection] handler. *)
Inductive Connection :=
| Refused (message : string)
| Connected (s : Socket).

Definition connect (b : Backend) (token : option string) : Connection :=
  match socketAuth b token with
  | NextError message => Refused message
  | Next d => Connected (onConnection d)
  end.

Definition membership (c : Connection) : gset string :=
  match c with
  | Refused _ => ∅
  | Connected s => rooms s
  end.

(** The three refusals the middleware is specified to tell apart. *)
Inductive Refusal :=
| MissingCredential
| InvalidCredential
| UnknownUser.

Definition refusalMessage (r : Refusal) : string :=
  match r with
  | MissingCredential => "Authentication token missing"
  | InvalidCredential => "Unauthorized"
  | UnknownUser => "User not found in database"
  end.

(** When a presented credential falls under each refusal. *)
Inductive Fails (b : Backend) : option string → Refusal → Prop :=
| fails_absent : Fails b None MissingCredential
| fails_empty : Fails b (Some "") MissingCredential
| fails_verification tok :
    tok ≠ "" → verifyIdToken b tok = None → Fails b (Some tok) InvalidCredential
| fails_directory tok uid :
    tok ≠ "" → verifyIdToken b tok = Some uid → findOne b uid = NotFound →
    Fails b (Some tok) UnknownUser.

(** A credential that verifies and resolves to a user of the directory. *)
Definition Authenticates (b : Backend) (token : option string) (d : SocketData)
    : Prop :=
  ∃ tok, token = Some tok ∧ tok ≠ "" ∧
    verifyIdToken b tok = Some (firebaseUID d) ∧
    findOne b (firebaseUID d) = Found (mongoUserId d).

(** *** Membership along a session *)

(** The last joinRoom or leaveRoom message of [sent] that names [room],
    read as a verdict: [Some true] for a join, [Some false] for a leave. *)
Fixpoint lastWord (room : string) (sent : list ClientEvent) : option bool :=
  match sent with
  | [] => None
  | e :: rest =>
      match lastWord room rest with
      | Some b => Some b
      | None =>
          match e with
          | JoinRoom chatId => if bool_decide (chatId = room) then Some true else None
          | LeaveRoom chatId => if bool_decide (chatId = room) then Some false else None
          | Disconnect => None
          end
      end
  end.

(** A closed socket is in no channel. *)
Definition settled (s : Socket) : Prop :=
  connected s = false → rooms s = ∅.

(** A disconnection is among the events. *)
Definition hungUp (sent : list ClientEvent) : bool :=
  existsb (λ e, match e with Disconnect => true | _ => false end) sent.

(** *** Start-up *)

(** The environment variables the entry point reads. *)
Record Env := {
  PORT : option string;
  NODE_ENV : option string;
  MONGO_URI : option string;
}.

(** The port: [Number(process.env.PORT)], kept as the text it is computed
    from, or one of the two defaults. *)
Inductive Port :=
| NumberOf (raw : string)
| Fixed (n : Z).

(** [process.env.PORT ? Number(process.env.PORT)
      : process.env.NODE_ENV === 'production' ? 8080 : 5001] *)
Definition port (env : Env) : Port :=
  match PORT env with
  | Some (String a raw) => NumberOf (String a raw)
  | Some EmptyString | None =>
      if bool_decide (NODE_ENV env = Some "production") then Fixed 8080%Z
      else Fixed 5001%Z
  end.

(** What the start-up code calls; console output is recorded by level. *)
Inductive StartupCall :=
| MongooseConnect (uri : string)
| ConsoleLog
| ConsoleWarn
| ConsoleErr
| Listen (p : Port).

(** The last block of the entry point,
    [mongoose.connect(uri).then(onConnected).catch(onError)] or the plain
    [else] branch.  [connected] is how [mongoose.connect] settles ([true]:
    it resolves) and [listenThrows] whether [httpServer.listen] throws when
    called; an exception thrown inside [onConnected] reaches [onError]. *)
Definition startup (env : Env) (connected listenThrows : bool) : list StartupCall :=
  match MONGO_URI env with
  | Some (String a uri) =>
      MongooseConnect (String a uri)
      :: (if connected
          then [ConsoleLog; Listen (port env)]
               ++ (if listenThrows then [ConsoleErr; Listen (port env)] else [])
          else [ConsoleErr; Listen (port env)])
  | Some EmptyString | None => [ConsoleWarn; Listen (port env)]
  end.

Definition isListen (c : StartupCall) : bool :=
  match c with
  | Listen _ => true
  | _ => false
  end.

Definition isMongooseConnect (c : StartupCall) : bool :=
  match c with
  | MongooseConnect _ => true
  | _ => false
  end.

End Server.

(** ** The vocabulary of the specification *)

Module Spec.
Import Js Chats.

(** [kept] is the subsequence of [all] made of the items that satisfy [P]:
    same order, same multiplicity, nothing else. *)
Inductive Selects {A : Type} (P : A → Prop) : list A → list A → Prop :=
| selects_nil : Selects P [] []
| selects_keep x all kept :
    P x → Selects P all kept → Selects P (x :: all) (x :: kept)
| selects_skip x all kept :
    ¬ P x → Selects P all kept → Selects P (x :: all) kept.

Section Search.
Context `{StringPrototype}.

(** The field contains the term, case-insensitively: the lower-cased term
    occurs inside the lower-cased field; an absent field is the empty text. *)
Definition fieldContains (term : string) (field : option string) : Prop :=
  ∃ before after : string,
    match field with
    | Some text => toLowerCase text
    | None => ""
    end = before +:+ toLowerCase term +:+ after.

(** The listing title or the counterpart name contains the term. *)
Definition Matches (term : string) (item : ChatListItem) : Prop :=
  fieldContains term (listingTitle item) ∨ fieldContains term (recipientName item).

End Search.

(** The failure of the call [id] reaches its caller or the user: the promise
    of the call rejects, or an alert is raised. *)
Definition surfaced (id : nat) (s : Screen) : Prop :=
  (∃ reason, promises s !! id = Some (Rejected reason))
  ∨ (∃ title message, AlertAlert title message ∈ trace s).

(** The calls of a registration that stops at a refused permission. *)
Definition refusedCalls (env : Platform) : list Effect :=
  (if bool_decide (OS env = "android") then [SetNotificationChannel "default"] else [])
  ++ [GetPermissions; RequestPermissions;
      AlertAlert "Permission Denied" "Failed to get push token for notifications."].

(** What a failed load leaves in the trace: the log line. *)
Definition loadFailureCalls : list Effect :=
  [ConsoleError "Failed to load chat threads"].

(** What a failed delete leaves in the trace: the log line and the alert. *)
Definition deleteFailureCalls : list Effect :=
  [ConsoleError "Delete chat failed:";
   AlertAlert "Error" "Could not delete the chat thread. Please try again."].

(** The responses [loadChats] and the delete handler treat as a failure. *)
Definition failedLoad (r : HttpOutcome) : Prop :=
  ∀ data, r ≠ Responded true (Some data).

Definition failedDelete (r : HttpOutcome) : Prop :=
  ∀ json, r ≠ Responded true json.

(** The bookkeeping of the asynchronous calls is consistent: every parked
    or settled call has a number below the next one to be given out, and no
    call is parked and settled at once. *)
Definition consistent (s : Screen) : Prop :=
  (∀ id, is_Some (tasks s !! id) → id < nextTask s)
  ∧ (∀ id, is_Some (promises s !! id) → id < nextTask s)
  ∧ (∀ id, is_Some (tasks s !! id) → promises s !! id = None).


End Spec.

(** ** Sample inputs *)

Module Sample.
Import Js Chats Server.

#[export] Instance strings : StringPrototype := ascii_strings.

Definition roomA : ChatListItem :=
  {| chatId := "T1"; listingTitle := Some "Room A"; recipientName := Some "Dana";
     listingOwnerFirebaseUID := "u1"; lastMessageText := Some "hello";
     lastMessageTimestamp := 100; unreadCount := 1 |}.

Definition loft : ChatListItem :=
  {| chatId := "T2"; listingTitle := Some "Sunny Loft"; recipientName := Some "Omar";
     listingOwnerFirebaseUID := "u3"; lastMessageText := None;
     lastMessageTimestamp := 90; unreadCount := 0 |}.

(** A thread whose listing has an empty title. *)
Definition untitled : ChatListItem :=
  {| chatId := "T3"; listingTitle := Some ""; recipientName := Some "Dana";
     listingOwnerFirebaseUID := "u1"; lastMessageText := None;
     lastMessageTimestamp := 80; unreadCount := 0 |}.

(** A signed-in screen that has loaded [roomA] and [loft]. *)
Definition loaded : Screen :=
  run (mount (Some "u2"))
    [FocusGained; TokenSettled 0 (Some "tok");
     ResponseSettled 0 (Responded true (Some [roomA; loft]))].

(** A directory with one user; the token [good] verifies to that user, the
    token [ghost] to an identity the directory does not hold. *)
Definition backend : Backend :=
  {| verifyIdToken := λ tok,
       if bool_decide (tok = "good") then Some "uid-1"
       else if bool_decide (tok = "ghost") then Some "uid-9"
       else None;
     findOne := λ uid, if bool_decide (uid = "uid-1") then Found "42" else NotFound |}.

(** [loaded] after the user asked to delete [roomA]: the request is sent
    and call 1 waits for its response. *)
Definition deleting : Screen :=
  run loaded
    [SwipeDelete "T1"; PressDelete "T1"; TokenSettled 1 (Some "tok")].

(** [loaded] with a refresh under way: call 1 waits for its response. *)
Definition refreshing : Screen :=
  run loaded [ChatActivity []; TokenSettled 1 (Some "tok")].

Definition denied : option PermissionResponse :=
  Some {| status := Some "denied"; granted := Some false |}.

(** An iOS device on which the user refuses notifications. *)
Definition refusing : Platform :=
  {| OS := "ios"; channelSet := Resolved tt;
     existingPermissions := Resolved (Some {| status := Some "undetermined"; granted := None |});
     requestedPermissions := Resolved denied;
     projectId := Some "proj"; expoPushToken := Resolved "ExponentPushToken[x]";
     idToken := Resolved "tok"; pushTokenPosted := Resolved tt |}.

(** The same device once the user has allowed notifications. *)
Definition allowing : Platform :=
  {| OS := "ios"; channelSet := Resolved tt;
     existingPermissions := Resolved (Some {| status := None; granted := Some true |});
     requestedPermissions := Resolved denied;
     projectId := Some "proj"; expoPushToken := Resolved "ExponentPushToken[x]";
     idToken := Resolved "tok"; pushTokenPosted := Resolved tt |}.

(** Three activity events reach [refreshing] while call 1 is still waiting
    for its response; that response then arrives, and only afterwards do the
    credentials of the three new calls resolve. *)
Definition burst : list Event :=
  [ChatActivity [Str "T1"]; ChatActivity [Null]; ChatActivity [];
   ResponseSettled 1 (Responded true (Some [roomA; loft]));
   TokenSettled 2 (Some "tok"); TokenSettled 3 (Some "tok");
   TokenSettled 4 (Some "tok")].

(** While the refresh of [refreshing] is under way the user deletes [roomA]
    and the server confirms. *)
Definition deleted : Screen :=
  run refreshing
    [SwipeDelete "T1"; PressDelete "T1"; TokenSettled 2 (Some "tok");
     ResponseSettled 2 (Responded true None)].

(** The refresh, sent before the deletion, then answers with a snapshot
    that still holds [roomA]. *)
Definition staleSnapshot : Event :=
  ResponseSettled 1 (Responded true (Some [roomA; loft])).

End Sample.

(** ** The base URL: [constants/api.ts] *)

Module Api.








End Api.

(** ** The wishlist screen: [app/(tabs)/wishlist.tsx] *)

Module Wishlist.
Import Js Chats.

(** A listing as the screen reads it: its two identifiers, either of which
    may be missing; [rest] stands for the fields the screen hands on to the
    card without reading them. *)
Record Listing := {
  _id : option string;
  id : option string;
  rest : Value;
}.

(** [l._id || l.id] *)
Definition reliableId (l : Listing) : option string :=
  match _id l with
  | Some (String a s) => Some (String a s)
  | Some EmptyString | None => id l
  end.

Inductive Task :=
| FetchToken
| FetchResponse
| RemoveToken (listingId : string)
| RemoveResponse (listingId : string).

Record Screen := {
  firebaseUser : option string;
  wishlistListings : list Listing;
  loading : bool;
  tasks : gmap nat Task;
  nextTask : nat;
  trace : list Effect;
}.

Definition mount (user : option string) : Screen :=
  {| firebaseUser := user; wishlistListings := []; loading := true; tasks := ∅;
     nextTask := 0; trace := [] |}.

Definition setWishlistListings (v : list Listing) (s : Screen) : Screen :=
  {| firebaseUser := firebaseUser s; wishlistListings := v; loading := loading s;
     tasks := tasks s; nextTask := nextTask s; trace := trace s |}.

Definition setLoading (v : bool) (s : Screen) : Screen :=
  {| firebaseUser := firebaseUser s; wishlistListings := wishlistListings s;
     loading := v; tasks := tasks s; nextTask := nextTask s; trace := trace s |}.

Definition emit (e : Effect) (s : Screen) : Screen :=
  {| firebaseUser := firebaseUser s; wishlistListings := wishlistListings s;
     loading := loading s; tasks := tasks s; nextTask := nextTask s;
     trace := trace s ++ [e] |}.

Definition spawn (t : Task) (s : Screen) : Screen :=
  {| firebaseUser := firebaseUser s; wishlistListings := wishlistListings s;
     loading := loading s; tasks := <[nextTask s := t]> (tasks s);
     nextTask := S (nextTask s); trace := trace s |}.

Definition park (n : nat) (t : Task) (s : Screen) : Screen :=
  {| firebaseUser := firebaseUser s; wishlistListings := wishlistListings s;
     loading := loading s; tasks := <[n := t]> (tasks s);
     nextTask := nextTask s; trace := trace s |}.

Definition finish (n : nat) (s : Screen) : Screen :=
  {| firebaseUser := firebaseUser s; wishlistListings := wishlistListings s;
     loading := loading s; tasks := delete n (tasks s);
     nextTask := nextTask s; trace := trace s |}.

(** How the wishlist request ends: [fetch] rejects with an error, or a
    response arrives with its [ok] flag and the outcome of [res.json()].  A
    rejection carries [err.message], empty when the error has none. *)
Inductive ListOutcome :=
| ListRejected (message : string)
| ListResponded (ok : bool) (json : Settled (list Listing)).

(** *** [fetchWishlist], also the body of [onRefresh] *)

Definition fetchWishlist (s : Screen) : Screen :=
  match firebaseUser s with
  | None => setLoading false (setWishlistListings [] s)
  | Some _ => spawn FetchToken (emit GetIdToken (setLoading true s))
  end.

(** [catch (err) { Alert.alert('Error', err.message || '...') }
     finally { setLoading(false) }] *)
Definition fetch_catch (message : string) (s : Screen) : Screen :=
  setLoading false
    (emit (AlertAlert "Error" (or_else (Some message) "Failed to load your wishlist.")) s).

Definition fetch_token (n : nat) (token : Settled string) (s : Screen) : Screen :=
  match token with
  | Resolved tok =>
      park n FetchResponse (emit (Fetch "GET" "/api/users/wishlist" tok None) s)
  | Rejected message => finish n (fetch_catch message s)
  end.

Definition fetch_response (n : nat) (r : ListOutcome) (s : Screen) : Screen :=
  match r with
  | ListRejected message => finish n (fetch_catch message s)
  | ListResponded false _ => finish n (fetch_catch "Could not load your wishlist" s)
  | ListResponded true (Rejected message) => finish n (fetch_catch message s)
  | ListResponded true (Resolved data) =>
      finish n (setLoading false (setWishlistListings data s))
  end.

(** *** [handleRemoveFromWishlist] *)

(** The optimistic update, then the head of the [try] up to the first
    [await]; without a user the function returns after the update. *)
Definition handleRemoveFromWishlist (listingId : string) (s : Screen) : Screen :=
  let s :=
    setWishlistListings
      (List.filter (λ l, bool_decide (reliableId l ≠ Some listingId))
         (wishlistListings s)) s in
  match firebaseUser s with
  | None => s
  | Some _ => spawn (RemoveToken listingId) (emit GetIdToken s)
  end.

Definition remove_catch (s : Screen) : Screen :=
  emit (AlertAlert "Error"
          "Failed to update your wishlist. The item will reappear on refresh.") s.

Definition remove_token (n : nat) (listingId : string) (token : Settled string)
    (s : Screen) : Screen :=
  match token with
  | Resolved tok =>
      park n (RemoveResponse listingId)
        (emit (Fetch "DELETE" ("/api/users/wishlist/" +:+ listingId) tok None) s)
  | Rejected _ => finish n (remove_catch s)
  end.

(** After [await fetch(...)]: the response is not looked at; a rejection
    lands in [catch]. [answered = Some ok] is a response with that flag. *)
Definition remove_response (n : nat) (answered : option bool) (s : Screen) : Screen :=
  match answered with
  | Some _ => finish n s
  | None => finish n (remove_catch s)
  end.

(** *** The event loop of the screen *)

Inductive Event :=
| FocusGained
| PullToRefresh
| ToggleFavorite (listingId : string)
| TokenSettled (n : nat) (token : Settled string)
| ListSettled (n : nat) (r : ListOutcome)
| RemovalSettled (n : nat) (answered : option bool).

Definition step (s : Screen) (e : Event) : Screen :=
  match e with
  | FocusGained => fetchWishlist s
  | PullToRefresh => fetchWishlist s
  | ToggleFavorite listingId => handleRemoveFromWishlist listingId s
  | TokenSettled n token =>
      match tasks s !! n with
      | Some FetchToken => fetch_token n token s
      | Some (RemoveToken listingId) => remove_token n listingId token s
      | _ => s
      end
  | ListSettled n r =>
      match tasks s !! n with
      | Some FetchResponse => fetch_response n r s
      | _ => s
      end
  | RemovalSettled n answered =>
      match tasks s !! n with
      | Some (RemoveResponse _) => remove_response n answered s
      | _ => s
      end
  end.

Definition run (s : Screen) (es : list Event) : Screen :=
  foldl step s es.

End Wishlist.

(** ** The authentication provider: [context/AuthContext.tsx] *)

Module Auth.
Import Js Chats.

(** What the provider asks of the outside. *)
Inductive Call :=
| AskIdToken
| PostSyncUser (bearer : string)
| ConsoleWarn
| ConsoleError.

(** The listener given to [onAuthStateChanged] is parked on one of its two
    [await]s: the credential, or the response and its body. *)
Inductive Task :=
| SyncToken
| SyncResponse.

Record Provider := {
  firebaseUser : option string;
  mongoUser : option Value;
  isLoading : bool;
  tasks : gmap nat Task;
  nextTask : nat;
  calls : list Call;
}.

(** The provider as [useState] initialises it. *)
Definition mount : Provider :=
  {| firebaseUser := None; mongoUser := None; isLoading := true; tasks := ∅;
     nextTask := 0; calls := [] |}.

Definition setFirebaseUser (v : option string) (s : Provider) : Provider :=
  {| firebaseUser := v; mongoUser := mongoUser s; isLoading := isLoading s;
     tasks := tasks s; nextTask := nextTask s; calls := calls s |}.

Definition setMongoUser (v : option Value) (s : Provider) : Provider :=
  {| firebaseUser := firebaseUser s; mongoUser := v; isLoading := isLoading s;
     tasks := tasks s; nextTask := nextTask s; calls := calls s |}.

Definition setIsLoading (v : bool) (s : Provider) : Provider :=
  {| firebaseUser := firebaseUser s; mongoUser := mongoUser s; isLoading := v;
     tasks := tasks s; nextTask := nextTask s; calls := calls s |}.

Definition emit (c : Call) (s : Provider) : Provider :=
  {| firebaseUser := firebaseUser s; mongoUser := mongoUser s;
     isLoading := isLoading s; tasks := tasks s; nextTask := nextTask s;
     calls := calls s ++ [c] |}.

Definition spawn (t : Task) (s : Provider) : Provider :=
  {| firebaseUser := firebaseUser s; mongoUser := mongoUser s;
     isLoading := isLoading s; tasks := <[nextTask s := t]> (tasks s);
     nextTask := S (nextTask s); calls := calls s |}.

Definition park (n : nat) (t : Task) (s : Provider) : Provider :=
  {| firebaseUser := firebaseUser s; mongoUser := mongoUser s;
     isLoading := isLoading s; tasks := <[n := t]> (tasks s);
     nextTask := nextTask s; calls := calls s |}.

Definition finish (n : nat) (s : Provider) : Provider :=
  {| firebaseUser := firebaseUser s; mongoUser := mongoUser s;
     isLoading := isLoading s; tasks := delete n (tasks s);
     nextTask := nextTask s; calls := calls s |}.

(** How the sync request ends: [fetch] rejects, or a response arrives with
    its [ok] flag and the outcome of reading its body: a rejection when
    [resp.json()] rejects (or, for an ok response, when [data.userData]
    throws because the body is [null]), otherwise [data.userData] when it is
    truthy and [None] when it is falsy or absent. *)
Inductive SyncOutcome :=
| SyncRejected
| SyncResponded (ok : bool) (userData : Settled (option Value)).

(** The listener, up to its first [await]; [setIsLoading(false)] is its
    last statement. *)
Definition onAuthStateChanged (user : option string) (s : Provider) : Provider :=
  let s := setFirebaseUser user s in
  match user with
  | Some _ => spawn SyncToken (emit AskIdToken s)
  | None => setIsLoading false (setMongoUser None s)
  end.

(** [catch (err) { console.error(...); setMongoUser(null) }], then the end
    of the listener. *)
Definition sync_catch (s : Provider) : Provider :=
  setIsLoading false (setMongoUser None (emit ConsoleError s)).

Definition sync_token (n : nat) (token : option string) (s : Provider) : Provider :=
  match token with
  | Some tok => park n SyncResponse (emit (PostSyncUser tok) s)
  | None => finish n (sync_catch s)
  end.

(** The body is read before [resp.ok] is looked at. *)
Definition sync_response (n : nat) (r : SyncOutcome) (s : Provider) : Provider :=
  match r with
  | SyncRejected | SyncResponded _ (Rejected _) => finish n (sync_catch s)
  | SyncResponded true (Resolved userData) =>
      finish n (setIsLoading false (setMongoUser userData s))
  | SyncResponded false (Resolved _) =>
      finish n (setIsLoading false (setMongoUser None (emit ConsoleWarn s)))
  end.

Inductive Event :=
| AuthStateChanged (user : option string)
| TokenSettled (n : nat) (token : option string)
| SyncSettled (n : nat) (r : SyncOutcome).

Definition step (s : Provider) (e : Event) : Provider :=
  match e with
  | AuthStateChanged user => onAuthStateChanged user s
  | TokenSettled n token =>
      match tasks s !! n with
      | Some SyncToken => sync_token n token s
      | _ => s
      end
  | SyncSettled n r =>
      match tasks s !! n with
      | Some SyncResponse => sync_response n r s
      | _ => s
      end
  end.

Definition run (s : Provider) (es : list Event) : Provider :=
  foldl step s es.

End Auth.

(** ** More sample inputs *)

Module Fixture.
Import Js Sample.

(** [Sample.loaded] with two refreshes under way: calls 1 and 2 both wait
    for their response. *)
Definition twoRefreshes : Chats.Screen :=
  Chats.run Sample.loaded
    [Chats.ChatActivity []; Chats.TokenSettled 1 (Some "tok");
     Chats.PullToRefresh; Chats.TokenSettled 2 (Some "tok")].

(** [Sample.loaded] with the deletion of both threads under way. *)
Definition twoDeletions : Chats.Screen :=
  Chats.run Sample.loaded
    [Chats.SwipeDelete "T1"; Chats.PressDelete "T1"; Chats.TokenSettled 1 (Some "tok");
     Chats.SwipeDelete "T2"; Chats.PressDelete "T2"; Chats.TokenSettled 2 (Some "tok")].

(** A thread with neither a listing title nor a counterpart name. *)
Definition blank : Chats.ChatListItem :=
  {| Chats.chatId := "T4"; Chats.listingTitle := None; Chats.recipientName := None;
     Chats.listingOwnerFirebaseUID := "u1"; Chats.lastMessageText := None;
     Chats.lastMessageTimestamp := 70; Chats.unreadCount := 0 |}.







(** An Android device on which the user allows notifications at the
    prompt, and where the post of the token then fails. *)
Definition asking : Chats.Platform :=
  {| Chats.OS := "android"; Chats.channelSet := Chats.Resolved tt;
     Chats.existingPermissions :=
       Chats.Resolved (Some {| Chats.status := Some "undetermined";
                               Chats.granted := None |});
     Chats.requestedPermissions :=
       Chats.Resolved (Some {| Chats.status := None; Chats.granted := Some true |});
     Chats.projectId := None;
     Chats.expoPushToken := Chats.Resolved "ExponentPushToken[y]";
     Chats.idToken := Chats.Resolved "tok";
     Chats.pushTokenPosted := Chats.Rejected "offline" |}.

(** A user record of the directory, as the sync endpoint returns it. *)
Definition profile : Value := Obj [("name", Str "Dana")].

(** The provider while the sync of a user who has just signed in waits for
    its response. *)
Definition syncing : Auth.Provider :=
  Auth.run Auth.mount
    [Auth.AuthStateChanged (Some "u2"); Auth.TokenSettled 0 (Some "tok")].

End Fixture.

(** * Properties of the socket server *)

Section ServerProperties.
Import Server.

Lemma rooms_join room s : rooms (join room s) = {[room]} ∪ rooms s.
Proof. reflexivity. Qed.

Lemma rooms_leave room s : rooms (leave room s) = rooms s ∖ {[room]}.
Proof. reflexivity. Qed.

Lemma data_on s e : data (on s e) = data s.
Proof. unfold on. by destruct (connected s), e. Qed.

Lemma data_foldl_on sent s : data (foldl on s sent) = data s.
Proof.
  revert s. induction sent as [|e sent IH]; intros s; simpl; [done|].
  by rewrite IH, data_on.
Qed.

(** The membership of an open socket after a run of joinRoom messages. *)
Lemma rooms_after_joins chats : ∀ s,
  connected s = true →
  rooms (foldl on s (JoinRoom <$> chats)) = list_to_set chats ∪ rooms s.
Proof.
  induction chats as [|c chats IH]; intros s Hs; simpl.
  - by rewrite (left_id_L ∅ (∪)).
  - unfold on at 2. rewrite Hs, IH by done. simpl. apply set_eq. intros x.
    rewrite !elem_of_union, elem_of_singleton. tauto.
Qed.

Lemma empty_without (X : gset string) : (∅ : gset string) ∖ X = ∅.
Proof.
  apply set_eq. intros x. rewrite elem_of_difference, elem_of_empty. tauto.
Qed.

Lemma settled_on s e : settled s → settled (on s e).
Proof.
  unfold settled, on. intros Hs. destruct (connected s) eqn:Hc.
  - destruct e as [c|c|]; simpl; rewrite ?Hc; try discriminate.
    intros _. apply empty_without.
  - intros _. by apply Hs.
Qed.

Lemma settled_foldl sent : ∀ s, settled s → settled (foldl on s sent).
Proof.
  induction sent as [|e sent IH]; intros s Hs; [done|].
  simpl. apply IH. by apply settled_on.
Qed.

Lemma on_closed s e : connected s = false → on s e = s.
Proof. unfold on. by intros ->. Qed.

Lemma disconnect_closes s :
  settled s → rooms (on s Disconnect) = ∅ ∧ connected (on s Disconnect) = false.
Proof.
  unfold settled, on. intros Hs. destruct (connected s) eqn:Hc; simpl.
  - split; [apply empty_without|done].
  - auto.
Qed.

(** C4: whatever a connection has joined, its membership is empty after
    disconnect.  After any sequence of joinRoom and leaveRoom messages the
    socket is in no channel once it has disconnected, however many channels
    it had joined (after joining the thread channels [chats] it was in all
    of them and in its inbox); the disconnection is final: a second one, or
    a joinRoom that arrives afterwards, changes nothing. *)
Theorem disconnect_empties_membership
    (d : SocketData) (sent : list ClientEvent) (chats : list string) (late : string) :
  rooms (session d sent) = ∅
  ∧ connected (session d sent) = false
  ∧ rooms (foldl on (onConnection d) (JoinRoom <$> chats))
    = list_to_set chats ∪ {[inbox d]}
  ∧ rooms (session d (JoinRoom <$> chats)) = ∅
  ∧ on (session d sent) Disconnect = session d sent
  ∧ on (session d sent) (JoinRoom late) = session d sent.
Proof.
  assert (∀ l, settled (foldl on (onConnection d) l)) as Hst
    by (intros l; by apply settled_foldl).
  assert (∀ l, rooms (session d l) = ∅ ∧ connected (session d l) = false) as Hend
    by (intros l; apply disconnect_closes, Hst).
  destruct (Hend sent) as [Hr Hc].
  split; [exact Hr|]. split; [exact Hc|]. split; [|split; [|split]].
  - rewrite rooms_after_joins by done. simpl.
    by rewrite (right_id_L ∅ (∪)).
  - apply Hend.
  - by apply on_closed.
  - by apply on_closed.
Qed.

Lemma refusalMessage_inj r1 r2 : refusalMessage r1 = refusalMessage r2 → r1 = r2.
Proof. destruct r1, r2; simpl; intros E; first [reflexivity | discriminate E]. Qed.

Lemma connect_refused b token r : Fails b token r → connect b token = Refused (refusalMessage r).
Proof.
  unfold connect, socketAuth.
  destruct 1 as [| |tok Hne Hv|tok uid Hne Hv Hf]; simpl; try reflexivity.
  - destruct tok; [done|]. by rewrite Hv.
  - destruct tok; [done|]. by rewrite Hv, Hf.
Qed.

Lemma connect_connected b token s :
  connect b token = Connected s →
  Authenticates b token (data s) ∧ rooms s = {[inbox (data s)]}.
Proof.
  unfold connect, socketAuth, Authenticates.
  destruct token as [[|a tok]|]; try discriminate.
  destruct (verifyIdToken b (String a tok)) as [uid|] eqn:Hv; try discriminate.
  destruct (findOne b uid) as [| |id] eqn:Hf; try discriminate.
  intros [= <-]. simpl. split.
  - exists (String a tok). by rewrite Hv, Hf.
  - unfold inbox. simpl. apply (right_id_L ∅ (∪)).
Qed.

(** C5: a handshake whose credential is missing, does not verify, or
    verifies to an identity the user directory does not hold is refused with
    the message of its case, the three messages differ from one another, a
    refused handshake holds no channel membership, and a handshake that
    reaches the connection handler carries a credential that verified and
    resolved, and is then in its inbox channel only. *)
Theorem socket_auth_rejects_before_join (b : Backend) (token : option string) :
  (∀ r, Fails b token r → connect b token = Refused (refusalMessage r))
  ∧ (∀ r1 r2, refusalMessage r1 = refusalMessage r2 → r1 = r2)
  ∧ (∀ message, connect b token = Refused message →
       socketAuth b token = NextError message ∧ membership (connect b token) = ∅)
  ∧ (∀ s, connect b token = Connected s →
       Authenticates b token (data s) ∧ rooms s = {[inbox (data s)]}).
Proof.
  split; [|split; [|split]].
  - intros r. apply connect_refused.
  - apply refusalMessage_inj.
  - intros message E. rewrite E. split; [|reflexivity].
    unfold connect in E. destruct (socketAuth b token); congruence.
  - apply connect_connected.
Qed.

Lemma socket_auth_rejects_before_join_witness :
  connect Sample.backend None = Refused "Authentication token missing"
  ∧ connect Sample.backend (Some "forged") = Refused "Unauthorized"
  ∧ connect Sample.backend (Some "ghost") = Refused "User not found in database"
  ∧ membership (connect Sample.backend (Some "forged")) = ∅
  ∧ ∀ s, connect Sample.backend (Some "good") = Connected s →
      rooms s = {["user-inbox-42"]}.
Proof.
  split; [|split; [|split; [|split]]].
  - apply (proj1 (socket_auth_rejects_before_join Sample.backend None)
             MissingCredential).
    constructor.
  - apply (proj1 (socket_auth_rejects_before_join Sample.backend (Some "forged"))
             InvalidCredential).
    apply fails_verification; [discriminate | reflexivity].
  - apply (proj1 (socket_auth_rejects_before_join Sample.backend (Some "ghost"))
             UnknownUser).
    apply (fails_directory _ "ghost" "uid-9"); [discriminate | reflexivity | reflexivity].
  - destruct (socket_auth_rejects_before_join Sample.backend (Some "forged"))
      as (_ & _ & H & _).
    apply (H "Unauthorized"). reflexivity.
  - intros s E.
    destruct (socket_auth_rejects_before_join Sample.backend (Some "good"))
      as (_ & _ & _ & H).
    destruct (H s E) as [_ ->]. injection E as <-. reflexivity.
Defined.

End ServerProperties.

(** * Properties of the inbox screen *)

Section StringFacts.
Import Js.

Lemma startsWith_spec s p :
  startsWith s p = true ↔ ∃ after, s = p +:+ after.
Proof.
  revert s. induction p as [|a p IH]; intros s; simpl.
  - split; [intros _; by exists s | done].
  - destruct s as [|b s]; simpl.
    + split; [done | intros [after E]; discriminate E].
    + rewrite andb_true_iff, bool_decide_eq_true, IH. split.
      * intros [-> [after ->]]. by exists after.
      * intros [after [= -> ->]]. split; [done | by exists after].
Qed.

Lemma includes_spec s sub :
  includes s sub = true ↔ ∃ before after, s = before +:+ sub +:+ after.
Proof.
  induction s as [|b s IH]; simpl.
  - rewrite orb_false_r, startsWith_spec. split.
    + intros [after E]. by exists "", after.
    + intros [[|c before] [after E]]; [by exists after | discriminate E].
  - rewrite orb_true_iff, IH, startsWith_spec. split.
    + intros [[after E]|(before & after & ->)].
      * by exists "", after.
      * by exists (String b before), after.
    + intros [[|c before] [after E]].
      * left. by exists after.
      * right. injection E as -> ->. by exists before, after.
Qed.

End StringFacts.

Section TitleRule.
Import Js Chats.

(** C6, the claim as stated fails: for a viewer who is not the owner, a
    thread whose listing title is empty is shown under the title
    Conversation, not under its listing title. *)
Lemma inquirer_title_of_untitled_listing :
  isMeTheOwner (Some "u2") Sample.untitled = false
  ∧ listingTitle Sample.untitled = Some ""
  ∧ titleToDisplay (Some "u2") Sample.untitled = Some "Conversation"
  ∧ titleToDisplay (Some "u2") Sample.untitled ≠ listingTitle Sample.untitled.
Proof. repeat split; discriminate. Qed.

(** C6 (amended): title and subtitle are a function of the viewer and the
    thread summary alone.  For the owner of the listing the title is the
    counterpart's name and the subtitle is Listing: followed by the listing
    title; for any other signed-in viewer the subtitle is From: followed by
    the counterpart's name and the title is the listing title when that is
    not empty, and Conversation when it is. *)
Theorem title_rule (uid : string) (item : ChatListItem) (title name : string) :
  listingTitle item = Some title →
  recipientName item = Some name →
  (uid = listingOwnerFirebaseUID item →
     titleToDisplay (Some uid) item = Some name
     ∧ subtitleToDisplay (Some uid) item = "Listing: " +:+ title)
  ∧ (uid ≠ listingOwnerFirebaseUID item →
     titleToDisplay (Some uid) item
       = Some (if bool_decide (title = "") then "Conversation" else title)
     ∧ subtitleToDisplay (Some uid) item = "From: " +:+ name).
Proof.
  intros Ht Hn. unfold titleToDisplay, subtitleToDisplay, isMeTheOwner.
  rewrite Ht, Hn. split; intros Hu.
  - by rewrite bool_decide_eq_true_2.
  - rewrite bool_decide_eq_false_2 by done. simpl.
    split; [|done]. by destruct title.
Qed.

Lemma title_rule_witness :
  (titleToDisplay (Some "u1") Sample.roomA = Some "Dana"
   ∧ subtitleToDisplay (Some "u1") Sample.roomA = "Listing: Room A")
  ∧ (titleToDisplay (Some "u2") Sample.roomA = Some "Room A"
     ∧ subtitleToDisplay (Some "u2") Sample.roomA = "From: Dana").
Proof.
  split.
  - apply (proj1 (title_rule "u1" Sample.roomA "Room A" "Dana" eq_refl eq_refl)).
    reflexivity.
  - apply (proj2 (title_rule "u2" Sample.roomA "Room A" "Dana" eq_refl eq_refl)).
    discriminate.
Defined.

End TitleRule.

Section SearchProjection.
Import Js Chats Spec.
Context `{StringPrototype}.

Lemma lowered_text field :
  lowered field = match field with Some text => toLowerCase text | None => "" end.
Proof.
  unfold lowered, or_else. destruct field as [text|]; simpl; [|done].
  by destruct (toLowerCase text).
Qed.

Lemma includes_lowered term field :
  includes (lowered field) (toLowerCase term) = true ↔ fieldContains term field.
Proof. unfold fieldContains. by rewrite includes_spec, lowered_text. Qed.

Lemma matchesTerm_spec term item :
  matchesTerm (toLowerCase term) item = true ↔ Matches term item.
Proof.
  unfold matchesTerm, Matches. simpl.
  by rewrite orb_true_iff, !includes_lowered.
Qed.

Lemma filter_Selects {A} (f : A → bool) (P : A → Prop) (l : list A) :
  (∀ x, f x = true ↔ P x) → Selects P l (List.filter f l).
Proof.
  intros Hf. induction l as [|x l IH]; simpl; [constructor|].
  destruct (f x) eqn:E.
  - apply selects_keep; [by apply Hf | done].
  - apply selects_skip; [|done]. rewrite <- Hf, E. discriminate.
Qed.

Lemma Selects_elem_of {A} (P : A → Prop) (l kept : list A) :
  Selects P l kept → ∀ x, x ∈ kept ↔ x ∈ l ∧ P x.
Proof.
  induction 1 as [|y l kept Hy _ IH|y l kept Hy _ IH]; intros x.
  - rewrite elem_of_nil. tauto.
  - rewrite !elem_of_cons, IH. split.
    + intros [->|[? ?]]; auto.
    + intros [[->|?] ?]; auto.
  - rewrite elem_of_cons, IH. split.
    + intros [? ?]; auto.
    + intros [[->|?] ?]; [done | auto].
Qed.

Lemma Selects_sublist {A} (P : A → Prop) (l kept : list A) :
  Selects P l kept → sublist kept l.
Proof. induction 1; by constructor. Qed.

Lemma Selects_functional {A} (P : A → Prop) (l k1 k2 : list A) :
  Selects P l k1 → Selects P l k2 → k1 = k2.
Proof.
  intros H1. revert k2.
  induction H1 as [|y l kept Hy _ IH|y l kept Hy _ IH]; intros k2 H2;
    inversion H2; subst; try contradiction.
  - reflexivity.
  - f_equal. by apply IH.
  - by apply IH.
Qed.

Lemma Selects_all {A} (P : A → Prop) (l : list A) :
  (∀ x, P x) → Selects P l l.
Proof. intros HP. induction l; constructor; auto. Qed.

Lemma searchFilter_Selects term items :
  Selects (λ item, term = "" ∨ Matches term item) items (searchFilter term items).
Proof.
  unfold searchFilter. case_bool_decide as Hterm.
  - apply Selects_all. by left.
  - apply filter_Selects. intros item. rewrite matchesTerm_spec.
    split; [by right | by intros [?|?]].
Qed.

(** C7: what the search effect stores in [filteredChatItems] is exactly the
    subsequence of the local list made of the items whose listing title or
    counterpart name contains the term case-insensitively, every item when
    the term is empty; the effect, and the keystroke that causes it, leave
    the local list, the loading flag, the pending calls and the calls made
    to the outside as they were. *)
Theorem search_is_a_projection (s : Screen) (text : string) :
  Selects (λ item, searchTerm s = "" ∨ Matches (searchTerm s) item)
    (chatItems s) (filteredChatItems (searchEffect s))
  ∧ searchFilter "" (chatItems s) = chatItems s
  ∧ (chatItems (searchEffect s) = chatItems s
     ∧ loading (searchEffect s) = loading s
     ∧ tasks (searchEffect s) = tasks s
     ∧ trace (searchEffect s) = trace s)
  ∧ Selects (λ item, text = "" ∨ Matches text item)
      (chatItems s) (filteredChatItems (step s (ChangeText text)))
  ∧ (chatItems (step s (ChangeText text)) = chatItems s
     ∧ loading (step s (ChangeText text)) = loading s
     ∧ tasks (step s (ChangeText text)) = tasks s
     ∧ trace (step s (ChangeText text)) = trace s).
Proof.
  split; [apply searchFilter_Selects|].
  split; [reflexivity|].
  split; [by repeat split|].
  split; [apply searchFilter_Selects|by repeat split].
Qed.

End SearchProjection.

Section DeleteFlow.
Import Js Chats Spec.
Context `{StringPrototype}.

Lemma delete_response_ok s id chat json :
  tasks s !! id = Some (DeleteResponse chat) →
  chatItems (step s (ResponseSettled id (Responded true json)))
    = List.filter (λ item, bool_decide (chatId item ≠ chat)) (chatItems s)
  ∧ trace (step s (ResponseSettled id (Responded true json))) = trace s.
Proof. intros Ht. unfold step, handle. by rewrite Ht. Qed.

Lemma delete_response_failed s id chat r :
  tasks s !! id = Some (DeleteResponse chat) → failedDelete r →
  chatItems (step s (ResponseSettled id r)) = chatItems s
  ∧ trace (step s (ResponseSettled id r)) = trace s ++ deleteFailureCalls.
Proof.
  intros Ht Hr. unfold step, handle. rewrite Ht.
  destruct r as [|[] json]; simpl.
  - by rewrite <- (assoc_L (++)).
  - by destruct (Hr json).
  - by rewrite <- (assoc_L (++)).
Qed.

Lemma delete_token_step s id chat token :
  tasks s !! id = Some (DeleteToken chat) →
  chatItems (step s (TokenSettled id token)) = chatItems s
  ∧ (token = None →
     trace (step s (TokenSettled id token)) = trace s ++ deleteFailureCalls).
Proof.
  intros Ht. unfold step, handle. rewrite Ht.
  destruct token; simpl; split; try done.
  intros _. by rewrite <- (assoc_L (++)).
Qed.

(** C9: the delete handler changes the local list only when the response
    to its request is ok, and then to the list of that moment without the
    items whose [chatId] is the deleted one, every other item kept in place;
    opening the dialog, pressing Delete and obtaining the credential leave
    the list as it is, and when the credential or the request fails, or the
    response is not ok, the list stays as it is and the error alert is
    raised. *)
Theorem delete_is_applied_only_on_ok (s : Screen) (id : nat) (chat : string) :
  (tasks s !! id = Some (DeleteResponse chat) →
     (∀ json,
        Selects (λ item, chatId item ≠ chat) (chatItems s)
          (chatItems (step s (ResponseSettled id (Responded true json))))
        ∧ trace (step s (ResponseSettled id (Responded true json))) = trace s)
     ∧ (∀ r, failedDelete r →
        chatItems (step s (ResponseSettled id r)) = chatItems s
        ∧ trace (step s (ResponseSettled id r)) = trace s ++ deleteFailureCalls))
  ∧ (tasks s !! id = Some (DeleteToken chat) →
     ∀ token,
       chatItems (step s (TokenSettled id token)) = chatItems s
       ∧ (token = None →
          trace (step s (TokenSettled id token)) = trace s ++ deleteFailureCalls))
  ∧ chatItems (step s (SwipeDelete chat)) = chatItems s
  ∧ chatItems (step s (PressCancel chat)) = chatItems s
  ∧ chatItems (step s (PressDelete chat)) = chatItems s.
Proof.
  split; [|split].
  - intros Ht. split.
    + intros json. destruct (delete_response_ok s id chat json Ht) as [-> ->].
      split; [|done]. apply filter_Selects.
      intros item. by rewrite bool_decide_eq_true.
    + intros r Hr. by apply (delete_response_failed s id chat r).
  - intros Ht token. by apply (delete_token_step s id chat token).
  - repeat split. unfold step, handle, onDelete. by destruct (firebaseUser s).
Qed.

End DeleteFlow.

Section DeleteFlowOnSample.
Import Sample.

Lemma delete_is_applied_only_on_ok_witness :
  Spec.Selects (λ item, Chats.chatId item ≠ "T1")
    (Chats.chatItems Sample.deleting)
    (Chats.chatItems
       (Chats.step Sample.deleting
          (Chats.ResponseSettled 1 (Chats.Responded true None))))
  ∧ Chats.chatItems
      (Chats.step Sample.deleting (Chats.ResponseSettled 1 Chats.FetchRejected))
    = Chats.chatItems Sample.deleting.
Proof.
  assert (Chats.tasks Sample.deleting !! 1 = Some (Chats.DeleteResponse "T1")) as Ht
    by (vm_compute; reflexivity).
  destruct (delete_is_applied_only_on_ok Sample.deleting 1 "T1") as [Hr _].
  destruct (Hr Ht) as [Hok Hfail]. split.
  - apply Hok.
  - apply Hfail. intros json. discriminate.
Defined.

End DeleteFlowOnSample.

Section FetchCycle.
Import Js Chats Spec.
Context `{StringPrototype}.

Lemma loadChats_signed_in b s uid :
  firebaseUser s = Some uid →
  loadChats b s
    = spawn LoadToken (emit GetIdToken (if b then s else setLoading true s)).
Proof. intros Hu. unfold loadChats. by rewrite Hu. Qed.

Lemma load_response_failed s id r :
  tasks s !! id = Some LoadResponse → failedLoad r →
  step s (ResponseSettled id r)
    = searchEffect (finish id (Resolved tt) (loadChats_catch s)).
Proof.
  intros Ht Hr. unfold step, handle. rewrite Ht.
  destruct r as [|[] [data|]]; simpl; try done. by destruct (Hr data).
Qed.

(** C10: whatever a chat-activity event carries, a signed-in screen
    answers it by starting one run of [loadChats] and by nothing else: the
    resulting state does not depend on the payload, the list, the loading
    flag and the search term are as before, one call is parked on the
    credential, and once the credential resolves the request sent is the GET
    of the whole thread list. *)
Theorem chat_activity_only_starts_a_fetch
    (s : Screen) (uid tok : string) (args args' : list Value) :
  firebaseUser s = Some uid →
  step s (ChatActivity args) = step s (ChatActivity args')
  ∧ step s (ChatActivity args) = searchEffect (spawn LoadToken (emit GetIdToken s))
  ∧ chatItems (step s (ChatActivity args)) = chatItems s
  ∧ loading (step s (ChatActivity args)) = loading s
  ∧ searchTerm (step s (ChatActivity args)) = searchTerm s
  ∧ filteredChatItems (step s (ChatActivity args))
    = searchFilter (searchTerm s) (chatItems s)
  ∧ tasks (step s (ChatActivity args)) = <[nextTask s := LoadToken]> (tasks s)
  ∧ trace (step s (ChatActivity args)) = trace s ++ [GetIdToken]
  ∧ trace (step (step s (ChatActivity args)) (TokenSettled (nextTask s) (Some tok)))
    = trace s ++ [GetIdToken; Fetch "GET" "/api/chat/threads" tok None].
Proof.
  intros Hu. split; [reflexivity|].
  unfold step at 1 2 3 4 5 6 7. unfold handle.
  rewrite (loadChats_signed_in true s uid Hu). simpl.
  repeat (split; [reflexivity|]).
  unfold step, handle. rewrite (loadChats_signed_in true s uid Hu). simpl.
  rewrite lookup_insert_eq. simpl. by rewrite <- (assoc_L (++)).
Qed.

(** C2 (amended): a snapshot that arrives with an ok response replaces the
    local list as it is, whatever was deleted in the meantime: the list
    after it is the snapshot, the rows on display are its search projection,
    and a thread is in the list afterwards exactly when the snapshot
    contains it. *)
Theorem snapshot_replaces_the_list
    (s : Screen) (id : nat) (data : list ChatListItem) (T : string) :
  tasks s !! id = Some LoadResponse →
  chatItems (step s (ResponseSettled id (Responded true (Some data)))) = data
  ∧ displayed (step s (ResponseSettled id (Responded true (Some data))))
    = searchFilter (searchTerm s) data
  ∧ (T ∈ chatId <$> chatItems (step s (ResponseSettled id (Responded true (Some data))))
     ↔ T ∈ chatId <$> data).
Proof.
  intros Ht. unfold step, handle. rewrite Ht. simpl. by repeat split.
Qed.

(** C3 (amended): when the credential, the request or the reading of the
    response fails, or the response is not ok, the run of [loadChats] ends
    with the loading flag off and the local list as it was; the error is
    written to the console and goes no further: the promise of the call
    resolves and no alert is raised. *)
Theorem failed_fetch_keeps_the_list (s : Screen) (id : nat) (r : HttpOutcome) :
  (tasks s !! id = Some LoadResponse → failedLoad r →
     chatItems (step s (ResponseSettled id r)) = chatItems s
     ∧ loading (step s (ResponseSettled id r)) = false
     ∧ tasks (step s (ResponseSettled id r)) !! id = None
     ∧ trace (step s (ResponseSettled id r)) = trace s ++ loadFailureCalls
     ∧ promises (step s (ResponseSettled id r)) !! id = Some (Resolved tt))
  ∧ (tasks s !! id = Some LoadToken →
     chatItems (step s (TokenSettled id None)) = chatItems s
     ∧ loading (step s (TokenSettled id None)) = false
     ∧ tasks (step s (TokenSettled id None)) !! id = None
     ∧ trace (step s (TokenSettled id None)) = trace s ++ loadFailureCalls
     ∧ promises (step s (TokenSettled id None)) !! id = Some (Resolved tt)).
Proof.
  split.
  - intros Ht Hr. rewrite (load_response_failed s id r Ht Hr). simpl.
    by rewrite lookup_delete_eq, lookup_insert_eq.
  - intros Ht. unfold step, handle. rewrite Ht. simpl.
    by rewrite lookup_delete_eq, lookup_insert_eq.
Qed.

End FetchCycle.

Section PushRegistration.
Import Js Chats Spec.

(** C8: when the permission is not granted, neither before nor after the
    one prompt, the registration makes no call that obtains or sends a push
    token: it reads the permission, prompts once, raises the Permission
    Denied alert and returns normally. *)
Theorem refused_permission_skips_registration
    (uid : string) (env : Platform) (existing requested : option PermissionResponse) :
  (OS env = "android" → channelSet env = Resolved tt) →
  existingPermissions env = Resolved existing →
  normalizePermissionStatus existing ≠ GRANTED →
  requestedPermissions env = Resolved requested →
  normalizePermissionStatus requested ≠ GRANTED →
  registerForPushNotifications (Some uid) env = (refusedCalls env, Resolved tt)
  ∧ List.filter isTokenTraffic (registerForPushNotifications (Some uid) env).1 = []
  ∧ length (List.filter isPrompt (registerForPushNotifications (Some uid) env).1) ≤ 1.
Proof.
  intros Hchan Hex Hnex Hreq Hnreq.
  assert (registerForPushNotifications (Some uid) env = (refusedCalls env, Resolved tt))
    as E.
  { unfold registerForPushNotifications, refusedCalls, mbind, act_bind, await, mret,
      act_ret, perform.
    rewrite Hex, Hreq.
    case_bool_decide as Hos; [rewrite (Hchan Hos)|]; simpl;
      rewrite !bool_decide_eq_true_2 by done; reflexivity. }
  rewrite E. split; [done|]. unfold refusedCalls.
  case_bool_decide; simpl; split; (reflexivity || lia).
Qed.

End PushRegistration.

Section PushRegistrationOnSample.
Import Js Chats Sample.

Lemma refused_permission_skips_registration_witness :
  registerForPushNotifications (Some "u2") refusing
  = ([GetPermissions; RequestPermissions;
      AlertAlert "Permission Denied" "Failed to get push token for notifications."],
     Resolved tt).
Proof.
  apply (proj1 (refused_permission_skips_registration "u2" refusing
                  (Some {| status := Some "undetermined"; granted := None |}) denied
                  ltac:(discriminate) eq_refl ltac:(discriminate) eq_refl
                  ltac:(discriminate))).
Defined.

(** With the permission granted the token is obtained and posted. *)
Example allowed_permission_registers :
  registerForPushNotifications (Some "u2") allowing
  = ([GetPermissions; GetExpoPushToken (Some "proj"); GetIdToken;
      Fetch "POST" "/api/users/push-token" "tok"
        (Some (Obj [("token", Str "ExponentPushToken[x]")]))],
     Resolved tt).
Proof. reflexivity. Qed.

End PushRegistrationOnSample.

Section Coalescing.
Import Js Chats Spec.
Context `{StringPrototype}.

Lemma run_app s es1 es2 : run s (es1 ++ es2) = run (run s es1) es2.
Proof. apply foldl_app. Qed.

Lemma run_cons s e es : run s (e :: es) = run (step s e) es.
Proof. reflexivity. Qed.

Lemma fetchCount_emit e s :
  fetchCount (emit e s) = fetchCount s + (if isListFetch e then 1 else 0).
Proof.
  unfold fetchCount. simpl. rewrite List.filter_app, length_app. simpl.
  by destruct (isListFetch e).
Qed.

(** One activity event on a signed-in screen. *)
Lemma activity_step s uid args :
  firebaseUser s = Some uid →
  firebaseUser (step s (ChatActivity args)) = Some uid
  ∧ nextTask (step s (ChatActivity args)) = S (nextTask s)
  ∧ tasks (step s (ChatActivity args)) = <[nextTask s := LoadToken]> (tasks s)
  ∧ fetchCount (step s (ChatActivity args)) = fetchCount s.
Proof.
  intros Hu. unfold step, handle. rewrite (loadChats_signed_in true s uid Hu).
  repeat split; try done.
  change (fetchCount (emit GetIdToken s) = fetchCount s).
  rewrite fetchCount_emit. simpl. lia.
Qed.

Lemma activities_run payloads : ∀ s uid,
  firebaseUser s = Some uid →
  firebaseUser (run s (ChatActivity <$> payloads)) = Some uid
  ∧ nextTask (run s (ChatActivity <$> payloads)) = nextTask s + length payloads
  ∧ fetchCount (run s (ChatActivity <$> payloads)) = fetchCount s
  ∧ (∀ id, id < nextTask s →
       tasks (run s (ChatActivity <$> payloads)) !! id = tasks s !! id)
  ∧ (∀ i, i < length payloads →
       tasks (run s (ChatActivity <$> payloads)) !! (nextTask s + i) = Some LoadToken).
Proof.
  induction payloads as [|args payloads IH]; intros s uid Hu.
  - simpl. repeat split; try done; try lia; intros i Hi; lia.
  - destruct (activity_step s uid args Hu) as (Hu1 & Hn1 & Ht1 & Hf1).
    destruct (IH (step s (ChatActivity args)) uid Hu1) as (Hu2 & Hn2 & Hf2 & Hold & Hnew).
    rewrite fmap_cons, run_cons.
    change (length (args :: payloads)) with (S (length payloads)).
    rewrite Hu2, Hn2, Hf2, Hn1, Hf1. split; [done|]. split; [lia|].
    split; [done|]. split.
    + intros id Hid. rewrite Hold by lia. rewrite Ht1.
      apply lookup_insert_ne. lia.
    + intros [|i] Hi.
      * rewrite Hold by lia. rewrite Ht1, Nat.add_0_r. apply lookup_insert_eq.
      * replace (nextTask s + S i) with (nextTask (step s (ChatActivity args)) + i)
          by lia.
        apply Hnew. lia.
Qed.

(** One credential resolving for a call parked on it. *)
Lemma token_step s id tok :
  tasks s !! id = Some LoadToken →
  tasks (step s (TokenSettled id (Some tok))) = <[id := LoadResponse]> (tasks s)
  ∧ fetchCount (step s (TokenSettled id (Some tok))) = S (fetchCount s).
Proof.
  intros Ht. unfold step, handle. rewrite Ht. split; [done|].
  change (fetchCount (emit (Fetch "GET" "/api/chat/threads" tok None) s)
          = S (fetchCount s)).
  rewrite fetchCount_emit. simpl. lia.
Qed.

Lemma tokens_run tok k : ∀ n s,
  (∀ id, n ≤ id < n + k → tasks s !! id = Some LoadToken) →
  fetchCount (run s ((λ id, TokenSettled id (Some tok)) <$> seq n k))
  = fetchCount s + k.
Proof.
  induction k as [|k IH]; intros n s Hall; [simpl; lia|].
  destruct (token_step s n tok) as [Ht Hf]; [apply Hall; lia|].
  change (seq n (S k)) with (n :: seq (S n) k).
  rewrite fmap_cons, run_cons, IH, Hf; [lia|].
  intros id Hid. rewrite Ht, lookup_insert_ne by lia. apply Hall. lia.
Qed.

(** C1 (amended): the fetch cycle is not single-flight.  Each activity
    event received by a signed-in screen parks a run of [loadChats] of its
    own, whatever is already in flight and without touching it, and each of
    these runs sends its own request for the thread list once its credential
    resolves: N events lead to N further requests. *)
Theorem every_activity_event_fetches
    (s : Screen) (uid tok : string) (payloads : list (list Value)) :
  firebaseUser s = Some uid →
  (∀ id, id < nextTask s →
     tasks (run s (ChatActivity <$> payloads)) !! id = tasks s !! id)
  ∧ (∀ i, i < length payloads →
     tasks (run s (ChatActivity <$> payloads)) !! (nextTask s + i) = Some LoadToken)
  ∧ fetchCount (run s (ChatActivity <$> payloads)) = fetchCount s
  ∧ fetchCount
      (run s ((ChatActivity <$> payloads)
              ++ ((λ id, TokenSettled id (Some tok))
                    <$> seq (nextTask s) (length payloads))))
    = fetchCount s + length payloads.
Proof.
  intros Hu.
  destruct (activities_run payloads s uid Hu) as (_ & _ & Hf & Hold & Hnew).
  repeat split; try done.
  rewrite run_app, tokens_run, Hf; [done|].
  intros id Hid. replace id with (nextTask s + (id - nextTask s)) by lia.
  apply Hnew. lia.
Qed.

End Coalescing.

Section FetchCycleOnSample.
Import Js Chats Spec Sample.

(** C1, the claim as stated fails: three activity events received while one
    fetch is in flight lead to three further requests for the thread list,
    all of them sent after the in-flight fetch has completed. *)
Lemma burst_is_not_coalesced :
  tasks refreshing !! 1 = Some LoadResponse
  ∧ fetchCount (run refreshing (take 4 burst)) = fetchCount refreshing
  ∧ tasks (run refreshing (take 4 burst)) !! 1 = None
  ∧ fetchCount (run refreshing burst) = fetchCount refreshing + 3
  ∧ ¬ fetchCount (run refreshing burst) ≤ fetchCount refreshing + 1.
Proof.
  split; [vm_compute; reflexivity|].
  split; [vm_compute; reflexivity|].
  split; [vm_compute; reflexivity|].
  split; [vm_compute; reflexivity|].
  vm_compute. lia.
Qed.

Lemma every_activity_event_fetches_witness :
  fetchCount
    (run refreshing
       ((ChatActivity <$> [[Str "T1"]; [Null]; []])
        ++ [TokenSettled 2 (Some "tok"); TokenSettled 3 (Some "tok");
            TokenSettled 4 (Some "tok")]))
  = fetchCount refreshing + 3.
Proof.
  apply (proj2 (proj2 (proj2
    (every_activity_event_fetches refreshing "u2" "tok" [[Str "T1"]; [Null]; []]
       eq_refl)))).
Defined.

(** C2, the claim as stated fails: a thread deleted while a refresh is in
    flight is back on display as soon as that refresh answers with a
    snapshot that still contains it. *)
Lemma deleted_thread_reappears :
  displayedIds refreshing = ["T1"; "T2"]
  ∧ tasks deleted !! 1 = Some LoadResponse
  ∧ displayedIds deleted = ["T2"]
  ∧ displayedIds (step deleted staleSnapshot) = ["T1"; "T2"]
  ∧ "T1" ∈ displayedIds (step deleted staleSnapshot).
Proof.
  assert (displayedIds (step deleted staleSnapshot) = ["T1"; "T2"]) as E
    by (vm_compute; reflexivity).
  split; [vm_compute; reflexivity|].
  split; [vm_compute; reflexivity|].
  split; [vm_compute; reflexivity|].
  split; [exact E|]. rewrite E. apply elem_of_cons. by left.
Qed.

Lemma snapshot_replaces_the_list_witness :
  chatItems (step deleted staleSnapshot) = [roomA; loft]
  ∧ displayed (step deleted staleSnapshot) = [roomA; loft].
Proof.
  assert (tasks deleted !! 1 = Some LoadResponse) as Ht by (vm_compute; reflexivity).
  destruct (snapshot_replaces_the_list deleted 1 [roomA; loft] "T1" Ht)
    as (E1 & E2 & _).
  split; [exact E1|]. exact E2.
Defined.

(** C3, the claim as stated fails: after a refresh whose request is
    rejected, the only mark of the failure is a console line; the promise of
    the call resolves and no alert is raised. *)
Lemma failed_fetch_is_not_surfaced :
  tasks refreshing !! 1 = Some LoadResponse
  ∧ trace (step refreshing (ResponseSettled 1 FetchRejected))
    = trace refreshing ++ [ConsoleError "Failed to load chat threads"]
  ∧ promises (step refreshing (ResponseSettled 1 FetchRejected)) !! 1
    = Some (Resolved tt)
  ∧ ¬ surfaced 1 (step refreshing (ResponseSettled 1 FetchRejected)).
Proof.
  split; [vm_compute; reflexivity|].
  split; [vm_compute; reflexivity|].
  assert (promises (step refreshing (ResponseSettled 1 FetchRejected)) !! 1
          = Some (Resolved tt)) as Hp by (vm_compute; reflexivity).
  split; [exact Hp|].
  intros [[reason Hr]|(title & message & Hin)].
  - rewrite Hp in Hr. discriminate Hr.
  - vm_compute in Hin.
    repeat (apply elem_of_cons in Hin as [Hin|Hin]; [discriminate Hin|]).
    by apply elem_of_nil in Hin.
Qed.

Lemma failed_fetch_keeps_the_list_witness :
  chatItems (step refreshing (ResponseSettled 1 FetchRejected)) = [roomA; loft]
  ∧ loading (step refreshing (ResponseSettled 1 FetchRejected)) = false.
Proof.
  assert (tasks refreshing !! 1 = Some LoadResponse) as Ht by (vm_compute; reflexivity).
  assert (failedLoad FetchRejected) as Hr by (intros data; discriminate).
  destruct (proj1 (failed_fetch_keeps_the_list refreshing 1 FetchRejected) Ht Hr)
    as (E1 & E2 & _).
  split; [|exact E2]. rewrite E1. vm_compute. reflexivity.
Defined.

Lemma chat_activity_only_starts_a_fetch_witness :
  step loaded (ChatActivity [Str "T1"]) = step loaded (ChatActivity [])
  ∧ chatItems (step loaded (ChatActivity [Str "T1"])) = [roomA; loft].
Proof.
  destruct (chat_activity_only_starts_a_fetch loaded "u2" "tok" [Str "T1"] []
              eq_refl) as (E1 & E2 & _).
  split; [exact E1|]. rewrite E2. vm_compute. reflexivity.
Defined.

End FetchCycleOnSample.

(** * Further properties of the socket server *)

Section Membership.
Import Server.

Lemma lastWord_foldl sent : ∀ s room,
  settled s →
  room ∈ rooms (foldl on s sent) ↔
  connected s = true ∧ hungUp sent = false
  ∧ match lastWord room sent with
    | Some b => b = true
    | None => room ∈ rooms s
    end.
Proof.
  induction sent as [|e sent IH]; intros s room Hs.
  - simpl. destruct (connected s) eqn:Hc; [tauto|].
    rewrite (Hs Hc), elem_of_empty. split; [done|]. by intros [? _].
  - change (foldl on s (e :: sent)) with (foldl on (on s e) sent).
    rewrite IH by (by apply settled_on). unfold on.
    destruct (connected s) eqn:Hc.
    2:{ rewrite Hc. split; by intros [? _]. }
    destruct e as [c|c|]; simpl; rewrite ?Hc;
      destruct (lastWord room sent) as [b|]; try tauto;
      try (split; [by intros [? _] | by intros (_ & ? & _)]);
      case_bool_decide as Hr; subst;
      rewrite ?elem_of_union, ?elem_of_difference, ?elem_of_singleton;
      intuition congruence.
Qed.

(** As long as it has not disconnected, a socket is in a channel exactly
    when the last joinRoom or leaveRoom message naming that channel was a
    join, and in a channel no message names only if it is its own inbox;
    once a disconnection is among the events it is in no channel, whatever
    was sent before or arrives after. *)
Theorem membership_follows_the_last_word
    (d : SocketData) (sent : list ClientEvent) (room : string) :
  room ∈ rooms (foldl on (onConnection d) sent) ↔
  hungUp sent = false
  ∧ match lastWord room sent with
    | Some b => b = true
    | None => room = inbox d
    end.
Proof.
  rewrite lastWord_foldl by done. simpl.
  destruct (lastWord room sent).
  - tauto.
  - rewrite elem_of_union, elem_of_singleton, elem_of_empty. tauto.
Qed.

(** Each refusal message has exactly one set of causes: a missing or empty
    token; a token that does not verify or a directory query that fails; a
    verified identity the directory does not hold. *)
Theorem refusal_causes (b : Backend) (token : option string) (message : string) :
  connect b token = Refused message ↔
  (message = "Authentication token missing" ∧ (token = None ∨ token = Some ""))
  ∨ (message = "Unauthorized"
     ∧ ∃ tok, token = Some tok ∧ tok ≠ ""
         ∧ (verifyIdToken b tok = None
            ∨ ∃ uid, verifyIdToken b tok = Some uid ∧ findOne b uid = QueryRejected))
  ∨ (message = "User not found in database"
     ∧ ∃ tok uid, token = Some tok ∧ tok ≠ ""
         ∧ verifyIdToken b tok = Some uid ∧ findOne b uid = NotFound).
Proof.
  unfold connect, socketAuth. split.
  - destruct token as [[|a tok]|].
    + intros [= <-]. left. auto.
    + destruct (verifyIdToken b (String a tok)) as [uid|] eqn:Hv.
      * destruct (findOne b uid) as [| |id] eqn:Hf; intros [= <-].
        -- right. left. split; [done|]. exists (String a tok). eauto 8.
        -- right. right. split; [done|]. exists (String a tok), uid. auto.
      * intros [= <-]. right. left. split; [done|]. exists (String a tok). auto.
    + intros [= <-]. left. auto.
  - intros [[-> [->| ->]]|[[-> (tok & -> & Hne & Hc)]|[-> (tok & uid & -> & Hne & Hv & Hf)]]];
      try reflexivity.
    + destruct tok as [|a tok]; [done|].
      destruct Hc as [Hv|(uid & Hv & Hf)]; rewrite Hv; [done|by rewrite Hf].
    + destruct tok as [|a tok]; [done|]. by rewrite Hv, Hf.
Qed.



(** The server starts listening whatever happens to the database: once
    when [listen] does not throw, and the database is contacted only for a
    non-empty MONGO_URI.  When the database connects and [listen] throws,
    the error is logged by the handler meant for database failures and
    [listen] is called a second time. *)
Theorem startup_always_listens (env : Env) (connected listenThrows : bool) :
  1 ≤ length (List.filter isListen (startup env connected listenThrows))
  ∧ (length (List.filter isListen (startup env connected listenThrows)) = 2
     ↔ (∃ uri, MONGO_URI env = Some uri ∧ uri ≠ "")
       ∧ connected = true ∧ listenThrows = true)
  ∧ (List.filter isMongooseConnect (startup env connected listenThrows) ≠ []
     ↔ ∃ uri, MONGO_URI env = Some uri ∧ uri ≠ "")
  ∧ Forall (λ c, isListen c = true → c = Listen (port env))
      (startup env connected listenThrows)
  ∧ length (List.filter isListen (startup env connected listenThrows)) ≤ 2
  ∧ (length (List.filter isListen (startup env connected listenThrows)) = 2 →
     ∃ uri, startup env connected listenThrows
            = [MongooseConnect uri; ConsoleLog; Listen (port env);
               ConsoleErr; Listen (port env)]).
Proof.
  unfold startup.
  destruct (MONGO_URI env) as [[|a uri]|]; simpl.
  - split; [lia|]. split; [|split; [|split; [|split]]]; try lia.
    + split; [lia|]. intros [(uri & [= <-] & Hne) _]. done.
    + split; [done|]. intros (uri & [= <-] & Hne). done.
    + repeat constructor; done.
  - destruct connected, listenThrows; simpl;
      (split; [lia|]); (split; [|split; [|split; [|split]]]); try lia;
      try (split; [intros; try lia; eauto 6 | intros (_ & ? & ?); congruence]);
      try (split; [intros _; eauto | done]);
      try (repeat constructor; done);
      try (intros _; eauto).
  - split; [lia|]. split; [|split; [|split; [|split]]]; try lia.
    + split; [lia|]. intros [(uri & [=] & _) _].
    + split; [done|]. intros (uri & [=] & _).
    + repeat constructor; done.
Qed.

End Membership.

(** * Further properties of the inbox screen *)

Section Bookkeeping.
Import Js Chats Spec.
Context `{StringPrototype}.

Lemma consistent_same s s' :
  tasks s' = tasks s → promises s' = promises s → nextTask s' = nextTask s →
  consistent s → consistent s'.
Proof. unfold consistent. by intros -> -> ->. Qed.

Lemma consistent_spawn t s : consistent s → consistent (spawn t s).
Proof.
  intros (Ht & Hp & Hd). unfold consistent. simpl. split; [|split].
  - intros id [x Hx]. destruct (decide (id = nextTask s)) as [->|Hne]; [lia|].
    rewrite lookup_insert_ne in Hx by done.
    assert (id < nextTask s) by eauto. lia.
  - intros id Hid. specialize (Hp id Hid). lia.
  - intros id [x Hx]. destruct (decide (id = nextTask s)) as [->|Hne].
    + destruct (promises s !! nextTask s) eqn:E; [|done].
      specialize (Hp (nextTask s)). rewrite E in Hp.
      assert (nextTask s < nextTask s) by eauto. lia.
    + rewrite lookup_insert_ne in Hx by done. eauto.
Qed.

Lemma consistent_park id t s x :
  tasks s !! id = Some x → consistent s → consistent (park id t s).
Proof.
  intros Hid (Ht & Hp & Hd). unfold consistent. simpl. split; [|split]; [|done|].
  - intros i [y Hy]. destruct (decide (i = id)) as [->|Hne]; [eauto|].
    rewrite lookup_insert_ne in Hy by done. eauto.
  - intros i [y Hy]. destruct (decide (i = id)) as [->|Hne]; [eauto|].
    rewrite lookup_insert_ne in Hy by done. eauto.
Qed.

Lemma consistent_finish id r s x :
  tasks s !! id = Some x → consistent s → consistent (finish id r s).
Proof.
  intros Hid (Ht & Hp & Hd). unfold consistent. simpl. split; [|split].
  - intros i [y Hy]. apply lookup_delete_Some in Hy as [_ Hy]. eauto.
  - intros i [y Hy]. destruct (decide (i = id)) as [->|Hne]; [eauto|].
    rewrite lookup_insert_ne in Hy by done. eauto.
  - intros i [y Hy]. apply lookup_delete_Some in Hy as [Hne Hy].
    rewrite lookup_insert_ne by done. eauto.
Qed.

Lemma consistent_handle e s : consistent s → consistent (handle e s).
Proof.
  intros Hs.
  assert (∀ e' s', consistent s' → consistent (emit e' s')) as Hemit
    by (intros; by eapply consistent_same).
  assert (∀ b s', consistent s' → consistent (setLoading b s')) as Hload
    by (intros; by eapply consistent_same).
  assert (∀ l s', consistent s' → consistent (setChatItems l s')) as Hitems
    by (intros; by eapply consistent_same).
  assert (∀ b s', consistent s' → consistent (loadChats b s')) as Hstart.
  { intros b s' Hs'. unfold loadChats. destruct (firebaseUser s'); [|done].
    apply consistent_spawn, Hemit. destruct b; auto. }
  destruct e as [| | |text|chat|chat|chat|id token|id r]; simpl; auto.
  - unfold onDelete, delete_catch. destruct (firebaseUser s); auto using consistent_spawn.
  - destruct (tasks s !! id) as [[| |chat|chat]|] eqn:Hid; auto.
    + unfold loadChats_token, loadChats_catch. destruct token.
      * eapply consistent_park; [exact Hid|auto].
      * eapply consistent_finish; [exact Hid|auto].
    + unfold delete_token, delete_catch. destruct token.
      * eapply consistent_park; [exact Hid|auto].
      * eapply consistent_finish; [exact Hid|auto].
  - destruct (tasks s !! id) as [[| |chat|chat]|] eqn:Hid; auto.
    + unfold loadChats_response, loadChats_catch.
      destruct r as [|[] [data|]]; (eapply consistent_finish; [exact Hid|auto]).
    + unfold delete_response, delete_catch.
      destruct r as [|[] json]; (eapply consistent_finish; [exact Hid|auto]).
Qed.

(** However the events of a session are interleaved, the screen never
    gives one number to two asynchronous calls: every call that is parked
    or has settled has a number below the next one to be given out, and no call
    is parked and settled at once. *)
Theorem bookkeeping_stays_consistent (user : option string) (es : list Event) :
  consistent (run (mount user) es).
Proof.
  unfold run. induction es as [|e es IH] using rev_ind.
  - unfold consistent. simpl. setoid_rewrite lookup_empty.
    repeat split; intros id [x Hx]; discriminate Hx.
  - rewrite foldl_app. simpl. unfold step.
    eapply consistent_same; [reflexivity..|]. by apply consistent_handle.
Qed.



End Bookkeeping.

Section Races.
Import Js Chats Spec.
Context `{StringPrototype}.

Lemma load_response_ok s id data :
  tasks s !! id = Some LoadResponse →
  step s (ResponseSettled id (Responded true (Some data)))
  = searchEffect (finish id (Resolved tt) (setLoading false (setChatItems data s))).
Proof. intros Ht. unfold step, handle. by rewrite Ht. Qed.

Lemma load_response_any s id r :
  tasks s !! id = Some LoadResponse →
  loading (step s (ResponseSettled id r)) = false
  ∧ tasks (step s (ResponseSettled id r)) = delete id (tasks s).
Proof.
  intros Ht. unfold step, handle. rewrite Ht.
  by destruct r as [|[] [data|]].
Qed.

Lemma run_two s e1 e2 : run s [e1; e2] = step (step s e1) e2.
Proof. reflexivity. Qed.

(** With two refreshes in flight the list ends up as the snapshot that
    arrived last, whichever request was sent first: a slow answer to an old
    request overwrites a newer one. *)
Theorem last_snapshot_wins (s : Screen) (i j : nat) (d1 d2 : list ChatListItem) :
  i ≠ j →
  tasks s !! i = Some LoadResponse →
  tasks s !! j = Some LoadResponse →
  chatItems (run s [ResponseSettled i (Responded true (Some d1));
                    ResponseSettled j (Responded true (Some d2))]) = d2
  ∧ chatItems (run s [ResponseSettled j (Responded true (Some d2));
                      ResponseSettled i (Responded true (Some d1))]) = d1.
Proof.
  intros Hij Hi Hj. rewrite !run_two. split.
  - rewrite (load_response_ok s i d1 Hi), load_response_ok; [done|].
    simpl. by rewrite lookup_delete_ne.
  - rewrite (load_response_ok s j d2 Hj), load_response_ok; [done|].
    simpl. by rewrite lookup_delete_ne.
Qed.

(** The loading flag is turned off by whichever run of [loadChats] ends
    first, whatever its outcome: it can be off while another request for the
    list is still awaited. *)
Theorem loading_flag_ignores_other_fetches
    (s : Screen) (i j : nat) (r : HttpOutcome) :
  i ≠ j →
  tasks s !! i = Some LoadResponse →
  tasks s !! j = Some LoadResponse →
  loading (step s (ResponseSettled i r)) = false
  ∧ tasks (step s (ResponseSettled i r)) !! j = Some LoadResponse.
Proof.
  intros Hij Hi Hj. destruct (load_response_any s i r Hi) as [-> ->].
  split; [done|]. by rewrite lookup_delete_ne.
Qed.

(** A reload on focus turns the loading flag on, but the rows stay on
    display as long as the list is not empty; only an empty list gives way
    to the spinner.  Pull-to-refresh and activity events do not touch the
    flag. *)
Theorem focus_reload_keeps_rows (s : Screen) (uid : string) :
  firebaseUser s = Some uid →
  loading (step s FocusGained) = true
  ∧ (chatItems s ≠ [] →
     displayed (step s FocusGained) = searchFilter (searchTerm s) (chatItems s))
  ∧ (chatItems s = [] → displayed (step s FocusGained) = [])
  ∧ loading (step s PullToRefresh) = loading s.
Proof.
  intros Hu. unfold step, handle.
  rewrite (loadChats_signed_in false s uid Hu), (loadChats_signed_in true s uid Hu).
  split; [done|]. split; [|split; [|done]].
  - intros Hne. unfold displayed. simpl. destruct (chatItems s); done.
  - intros He. unfold displayed. simpl. by rewrite He.
Qed.

Lemma filter_idem {A} (f : A → bool) (l : list A) :
  List.filter f (List.filter f l) = List.filter f l.
Proof.
  induction l as [|x l IH]; [done|]. simpl.
  destruct (f x) eqn:E; simpl; [|done]. by rewrite E, IH.
Qed.

Lemma filter_comm {A} (f g : A → bool) (l : list A) :
  List.filter f (List.filter g l) = List.filter g (List.filter f l).
Proof.
  induction l as [|x l IH]; [done|]. simpl.
  destruct (g x) eqn:Eg, (f x) eqn:Ef; simpl; rewrite ?Eg, ?Ef, IH; done.
Qed.

(** Searching acts on each thread on its own: the projection of a
    concatenation is the concatenation of the projections, searching the
    result of a search for the same term changes nothing, and searching
    commutes with the removal of a deleted thread. *)
Theorem search_acts_row_by_row
    (term chat : string) (items more : list ChatListItem) :
  searchFilter term (items ++ more) = searchFilter term items ++ searchFilter term more
  ∧ searchFilter term (searchFilter term items) = searchFilter term items
  ∧ searchFilter term
      (List.filter (λ item, bool_decide (chatId item ≠ chat)) items)
    = List.filter (λ item, bool_decide (chatId item ≠ chat)) (searchFilter term items).
Proof.
  unfold searchFilter. case_bool_decide; [done|].
  split; [apply List.filter_app|]. split; [apply filter_idem|apply filter_comm].
Qed.

Lemma delete_response_step s id chat json :
  tasks s !! id = Some (DeleteResponse chat) →
  step s (ResponseSettled id (Responded true json))
  = searchEffect
      (finish id (Resolved tt)
         (setChatItems
            (List.filter (λ item, bool_decide (chatId item ≠ chat)) (chatItems s)) s)).
Proof. intros Ht. unfold step, handle. by rewrite Ht. Qed.

(** Two confirmed deletions give the same list in whichever order their
    responses arrive, and neither thread is in it. *)
Theorem deletions_commute
    (s : Screen) (i j : nat) (a b : string) (ja jb : option (list ChatListItem)) :
  i ≠ j →
  tasks s !! i = Some (DeleteResponse a) →
  tasks s !! j = Some (DeleteResponse b) →
  chatItems (run s [ResponseSettled i (Responded true ja);
                    ResponseSettled j (Responded true jb)])
  = chatItems (run s [ResponseSettled j (Responded true jb);
                      ResponseSettled i (Responded true ja)])
  ∧ ¬ (a ∈ chatId <$> chatItems (run s [ResponseSettled i (Responded true ja);
                                        ResponseSettled j (Responded true jb)]))
  ∧ ¬ (b ∈ chatId <$> chatItems (run s [ResponseSettled i (Responded true ja);
                                        ResponseSettled j (Responded true jb)])).
Proof.
  intros Hij Hi Hj. rewrite !run_two.
  rewrite (delete_response_step s i a ja Hi), (delete_response_step s j b jb Hj).
  rewrite (delete_response_step _ j b jb) by (simpl; by rewrite lookup_delete_ne).
  rewrite (delete_response_step _ i a ja) by (simpl; by rewrite lookup_delete_ne).
  simpl. split; [apply filter_comm|].
  split; intros Hin; apply list_elem_of_fmap in Hin as (item & -> & Hin);
    apply list_elem_of_In in Hin;
    apply List.filter_In in Hin as [Hin Hp1];
    apply List.filter_In in Hin as [Hin Hp2];
    apply bool_decide_eq_true in Hp1, Hp2; done.
Qed.

End Races.

Section RowsAndRoutes.
Import Js Chats Spec.
Context `{StringPrototype}.

(** The name [handleChatPress] gives to the chat route is the title of the
    row that was pressed exactly when the viewer owns the listing or the
    listing title is not empty; for a thread without a listing title the row
    reads Conversation and the route is named Chat. *)
Theorem route_name_matches_row_title (viewer : option string) (item : ChatListItem) :
  (routeRecipientName viewer item = titleToDisplay viewer item
   ↔ isMeTheOwner viewer item = true
     ∨ ∃ a title, listingTitle item = Some (String a title))
  ∧ (routeRecipientName viewer item ≠ titleToDisplay viewer item →
     routeRecipientName viewer item = Some "Chat"
     ∧ titleToDisplay viewer item = Some "Conversation").
Proof.
  unfold routeRecipientName, titleToDisplay.
  destruct (isMeTheOwner viewer item); [split; [split; auto|done]|].
  destruct (listingTitle item) as [[|a title]|]; simpl; split;
    try (split; [discriminate|intros [?|(? & ? & ?)]; discriminate]);
    try (split; [eauto|done]); done.
Qed.

(** A thread that has neither a listing title nor a counterpart name is
    hidden by every search whose lower-cased term is not empty. *)
Theorem search_hides_threads_without_text
    (term : string) (items : list ChatListItem) (item : ChatListItem) :
  term ≠ "" → toLowerCase term ≠ "" →
  listingTitle item = None → recipientName item = None →
  item ∉ searchFilter term items.
Proof.
  intros Hterm Hlow Ht Hn Hin. unfold searchFilter in Hin.
  rewrite bool_decide_eq_false_2 in Hin by done.
  apply list_elem_of_In, List.filter_In in Hin as [_ Hm].
  unfold matchesTerm, lowered in Hm. rewrite Ht, Hn in Hm. simpl in Hm.
  destruct (toLowerCase term); [done|discriminate Hm].
Qed.

End RowsAndRoutes.

Section PushRegistrationMore.
Import Js Chats Spec.

(** A permission object counts as granted exactly when its [status] is the
    text granted or, in the absence of a [status], when its [granted] flag
    is true: a [status] that says otherwise prevails over the flag. *)
Theorem granted_means_status_or_flag (p : option PermissionResponse) :
  normalizePermissionStatus p = GRANTED ↔
  ∃ obj, p = Some obj
    ∧ (status obj = Some "granted" ∨ (status obj = None ∧ granted obj = Some true)).
Proof.
  unfold normalizePermissionStatus, GRANTED. split.
  - destruct p as [[st g]|]; simpl; [|discriminate].
    destruct st as [st|]; simpl.
    + intros ->. eexists. split; [done|]. by left.
    + destruct g as [[]|]; simpl; try discriminate.
      intros _. eexists. split; [done|]. by right.
  - intros ([st g] & -> & [Hs|[Hs Hg]]); simpl in *; subst; done.
Qed.

(** Whoever the user and whatever the platform answers, a registration
    obtains or sends a token only if the permission was granted, at once or
    at the prompt; and it prompts only if the permission was not granted
    at once. *)
Theorem token_traffic_needs_permission (user : option string) (env : Platform) :
  (List.filter isTokenTraffic (registerForPushNotifications user env).1 ≠ [] →
   ∃ existing, existingPermissions env = Resolved existing
     ∧ (normalizePermissionStatus existing = GRANTED
        ∨ ∃ requested, requestedPermissions env = Resolved requested
            ∧ normalizePermissionStatus requested = GRANTED))
  ∧ (List.filter isPrompt (registerForPushNotifications user env).1 ≠ [] →
     ∃ existing, existingPermissions env = Resolved existing
       ∧ normalizePermissionStatus existing ≠ GRANTED).
Proof.
  unfold registerForPushNotifications, mbind, act_bind, await, mret, act_ret, perform,
    tryCatch, GRANTED.
  destruct user as [uid|]; [|by split].
  destruct (existingPermissions env) as [existing|reason] eqn:Hex.
  2:{ case_bool_decide; [destruct (channelSet env) as [[]|]|]; by split. }
  destruct (decide (normalizePermissionStatus existing = "granted")) as [Hg|Hg].
  - rewrite (bool_decide_eq_false_2 _ (λ Hn, Hn Hg)). split.
    + intros _. exists existing. auto.
    + rewrite Hg.
      case_bool_decide; [destruct (channelSet env) as [[]|]|]; simpl;
        destruct (expoPushToken env), (idToken env), (pushTokenPosted env); done.
  - rewrite (bool_decide_eq_true_2 _ Hg). split; [|intros _; eauto].
    destruct (requestedPermissions env) as [requested|reason] eqn:Hreq.
    2:{ case_bool_decide; [destruct (channelSet env) as [[]|]|]; done. }
    destruct (decide (normalizePermissionStatus requested = "granted")) as [Hr|Hr].
    + intros _. exists existing. split; [done|]. right. eauto.
    + simpl. rewrite (bool_decide_eq_true_2 _ Hr).
      case_bool_decide; [destruct (channelSet env) as [[]|]|]; done.
Qed.

(** Decide whether a call occurs in a trace that is written out. *)
Local Ltac in_trace :=
  rewrite ?elem_of_cons, ?elem_of_nil;
  first
    [ split;
      [ intros Hor; decompose [or] Hor; first [discriminate | contradiction | eauto]
      | intros Hor; decompose [or ex] Hor; first [discriminate | tauto] ]
    | tauto ].

(** Once the permission is granted, at once or at the prompt, a
    registration never fails and never raises an alert: whatever goes wrong
    while the token is obtained or sent is written to the console, and the
    token is posted exactly when both the push token and the credential were
    obtained. *)
Theorem registration_failures_are_logged_only
    (uid : string) (env : Platform) (existing : option PermissionResponse) :
  (OS env = "android" → channelSet env = Resolved tt) →
  existingPermissions env = Resolved existing →
  (normalizePermissionStatus existing = GRANTED
   ∨ ∃ requested, requestedPermissions env = Resolved requested
       ∧ normalizePermissionStatus requested = GRANTED) →
  (registerForPushNotifications (Some uid) env).2 = Resolved tt
  ∧ List.filter isAlert (registerForPushNotifications (Some uid) env).1 = []
  ∧ (ConsoleError "Failed to send push token to backend"
       ∈ (registerForPushNotifications (Some uid) env).1
     ↔ (∃ reason, expoPushToken env = Rejected reason)
       ∨ (∃ reason, idToken env = Rejected reason)
       ∨ (∃ reason, pushTokenPosted env = Rejected reason))
  ∧ ((∃ token bearer,
        Fetch "POST" "/api/users/push-token" bearer (Some (Obj [("token", Str token)]))
          ∈ (registerForPushNotifications (Some uid) env).1)
     ↔ (∃ token, expoPushToken env = Resolved token)
       ∧ (∃ bearer, idToken env = Resolved bearer)).
Proof.
  intros Hchan Hex Hg.
  unfold registerForPushNotifications, mbind, act_bind, await, mret, act_ret, perform,
    tryCatch.
  rewrite Hex. unfold GRANTED in Hg.
  destruct (decide (normalizePermissionStatus existing = "granted")) as [He|He].
  - rewrite (bool_decide_eq_false_2 _ (λ Hn, Hn He)), He. simpl.
    case_bool_decide as Hos; [rewrite (Hchan Hos)|];
      destruct (expoPushToken env) as [token|r1], (idToken env) as [bearer|r2],
        (pushTokenPosted env) as [[]|r3]; simpl;
      (split; [done|]); (split; [done|]); (split; [in_trace|]);
      (split;
       [ intros (t & b & Hin);
         repeat (apply elem_of_cons in Hin as [Hin|Hin]; [try discriminate Hin|]);
         try (by apply elem_of_nil in Hin); eauto
       | intros [[t Ht] [b Hb]]; try discriminate;
         exists token, bearer; in_trace ]).
  - destruct Hg as [Hg|(requested & Hreq & Hg)]; [done|].
    rewrite (bool_decide_eq_true_2 _ He), Hreq. simpl.
    rewrite (bool_decide_eq_false_2 _ (λ Hn, Hn Hg)).
    case_bool_decide as Hos; [rewrite (Hchan Hos)|];
      destruct (expoPushToken env) as [token|r1], (idToken env) as [bearer|r2],
        (pushTokenPosted env) as [[]|r3]; simpl;
      (split; [done|]); (split; [done|]); (split; [in_trace|]);
      (split;
       [ intros (t & b & Hin);
         repeat (apply elem_of_cons in Hin as [Hin|Hin]; [try discriminate Hin|]);
         try (by apply elem_of_nil in Hin); eauto
       | intros [[t Ht] [b Hb]]; try discriminate;
         exists token, bearer; in_trace ]).
Qed.

End PushRegistrationMore.

(** * Properties of the base URL *)

Section BaseUrl.
Import Api.




End BaseUrl.

(** * Properties of the wishlist screen *)

Section WishlistProperties.
Import Js Chats Spec Wishlist.



(** Without a signed-in user the wishlist contacts nobody: gaining focus
    empties the list and stops the spinner, and a removal changes the list
    on the device only, with no request, no pending call and no alert. *)
Theorem signed_out_wishlist_is_local (s : Screen) (listingId : string) :
  firebaseUser s = None →
  (wishlistListings (step s FocusGained) = []
   ∧ loading (step s FocusGained) = false
   ∧ trace (step s FocusGained) = trace s
   ∧ tasks (step s FocusGained) = tasks s)
  ∧ (wishlistListings (step s (ToggleFavorite listingId))
     = List.filter (λ l, bool_decide (reliableId l ≠ Some listingId))
         (wishlistListings s)
     ∧ trace (step s (ToggleFavorite listingId)) = trace s
     ∧ tasks (step s (ToggleFavorite listingId)) = tasks s).
Proof.
  intros Hu. simpl. unfold fetchWishlist, handleRemoveFromWishlist. simpl.
  by rewrite Hu.
Qed.


End WishlistProperties.

Section WishlistRefresh.
Import Js Chats Spec Wishlist.





End WishlistRefresh.

(** * The further properties on sample inputs *)

Section ServerOnFixture.
Import Server Fixture.


End ServerOnFixture.

Section ChatsOnFixture.
Import Js Chats Spec Sample Fixture.

Lemma last_snapshot_wins_witness :
  chatItems (run twoRefreshes
               [ResponseSettled 1 (Responded true (Some [roomA]));
                ResponseSettled 2 (Responded true (Some [loft]))]) = [loft]
  ∧ chatItems (run twoRefreshes
                 [ResponseSettled 2 (Responded true (Some [loft]));
                  ResponseSettled 1 (Responded true (Some [roomA]))]) = [roomA].
Proof.
  apply (last_snapshot_wins twoRefreshes 1 2 [roomA] [loft]).
  - lia.
  - vm_compute. reflexivity.
  - vm_compute. reflexivity.
Defined.

Lemma loading_flag_ignores_other_fetches_witness :
  loading (step twoRefreshes (ResponseSettled 1 FetchRejected)) = false
  ∧ tasks (step twoRefreshes (ResponseSettled 1 FetchRejected)) !! 2
    = Some LoadResponse.
Proof.
  apply (loading_flag_ignores_other_fetches twoRefreshes 1 2 FetchRejected).
  - lia.
  - vm_compute. reflexivity.
  - vm_compute. reflexivity.
Defined.

Lemma focus_reload_keeps_rows_witness :
  loading (step loaded FocusGained) = true
  ∧ displayed (step loaded FocusGained) = [roomA; loft].
Proof.
  destruct (focus_reload_keeps_rows loaded "u2" eq_refl) as (E1 & E2 & _).
  split; [exact E1|]. rewrite E2; [vm_compute; reflexivity|].
  vm_compute. discriminate.
Defined.

Lemma deletions_commute_witness :
  chatItems (run twoDeletions
               [ResponseSettled 1 (Responded true None);
                ResponseSettled 2 (Responded true None)])
  = chatItems (run twoDeletions
                 [ResponseSettled 2 (Responded true None);
                  ResponseSettled 1 (Responded true None)]).
Proof.
  apply (deletions_commute twoDeletions 1 2 "T1" "T2" None None).
  - lia.
  - vm_compute. reflexivity.
  - vm_compute. reflexivity.
Defined.

Lemma route_name_matches_row_title_witness :
  routeRecipientName (Some "u2") roomA = titleToDisplay (Some "u2") roomA
  ∧ routeRecipientName (Some "u2") untitled ≠ titleToDisplay (Some "u2") untitled.
Proof.
  split.
  - apply (proj1 (route_name_matches_row_title (Some "u2") roomA)).
    right. eexists _, _. reflexivity.
  - intros E.
    apply (proj1 (route_name_matches_row_title (Some "u2") untitled)) in E
      as [E|(a & title & E)]; discriminate E.
Defined.

Lemma search_hides_threads_without_text_witness :
  blank ∉ searchFilter "room" [roomA; blank; loft].
Proof.
  apply (search_hides_threads_without_text "room" [roomA; blank; loft] blank);
    first [discriminate | reflexivity].
Defined.

Lemma token_traffic_needs_permission_witness :
  ∃ existing, existingPermissions allowing = Resolved existing
    ∧ (normalizePermissionStatus existing = GRANTED
       ∨ ∃ requested, requestedPermissions allowing = Resolved requested
           ∧ normalizePermissionStatus requested = GRANTED).
Proof.
  apply (proj1 (token_traffic_needs_permission (Some "u2") allowing)).
  vm_compute. discriminate.
Defined.

Lemma registration_failures_are_logged_only_witness :
  (registerForPushNotifications (Some "u2") asking).2 = Resolved tt
  ∧ List.filter isAlert (registerForPushNotifications (Some "u2") asking).1 = []
  ∧ ConsoleError "Failed to send push token to backend"
      ∈ (registerForPushNotifications (Some "u2") asking).1.
Proof.
  destruct (registration_failures_are_logged_only "u2" asking
              (Some {| status := Some "undetermined"; granted := None |})
              ltac:(intros _; reflexivity) eq_refl
              (or_intror
                 (ex_intro _ (Some {| status := None; granted := Some true |})
                    (conj eq_refl eq_refl))))
    as (E1 & E2 & E3 & _).
  split; [exact E1|]. split; [exact E2|].
  apply E3. right. right. by exists "offline".
Defined.

End ChatsOnFixture.

Section WishlistOnFixture.
Import Js Chats Spec Wishlist Fixture.


Lemma signed_out_wishlist_is_local_witness :
  wishlistListings (step (mount None) FocusGained) = []
  ∧ loading (step (mount None) FocusGained) = false.
Proof.
  destruct (signed_out_wishlist_is_local (mount None) "L1" eq_refl)
    as ((E1 & E2 & _) & _).
  split; [exact E1|exact E2].
Defined.



End WishlistOnFixture.

(** * Properties of the authentication provider *)

Section AuthProperties.
Import Js Chats Auth.


(** A sync that is still awaited when the user signs out is not cancelled:
    when its response arrives the provider holds the record of a user while
    no user is signed in. *)
Theorem late_sync_outlives_sign_out (s : Provider) (n : nat) (record : Value) :
  tasks s !! n = Some SyncResponse →
  firebaseUser
    (run s [AuthStateChanged None;
            SyncSettled n (SyncResponded true (Resolved (Some record)))]) = None
  ∧ mongoUser
      (run s [AuthStateChanged None;
              SyncSettled n (SyncResponded true (Resolved (Some record)))])
    = Some record.
Proof. intros Ht. unfold run. simpl. by rewrite Ht. Qed.

End AuthProperties.

Section AuthOnFixture.
Import Js Chats Auth Fixture.


Lemma late_sync_outlives_sign_out_witness :
  firebaseUser
    (run syncing [AuthStateChanged None;
                  SyncSettled 0 (SyncResponded true (Resolved (Some profile)))]) = None
  ∧ mongoUser
      (run syncing [AuthStateChanged None;
                    SyncSettled 0 (SyncResponded true (Resolved (Some profile)))])
    = Some profile.
Proof.
  apply (late_sync_outlives_sign_out syncing 0 profile).
  vm_compute. reflexivity.
Defined.

End AuthOnFixture.

Section BaseUrlOnSample.
Import Api.


End BaseUrlOnSample.
